(** * Receipt OCR application: the record extractor, the image normaliser
      and the page script of [streamlit_app.py], embedded and verified. *)

From Stdlib Require Import List NArith ZArith Bool Lia String Ascii.
Import ListNotations.

Set Implicit Arguments.

(** ** Python strings

    A Python [str] is a sequence of Unicode code points.  Code points are
    kept as [N]; the ASCII string literals of the source that are data
    (keys, sample texts) are written with [lit]. *)

Definition char := N.
Definition str := list char.

Definition lit (s : string) : str :=
  List.map N_of_ascii (list_ascii_of_string s).

Definition nl : char := 10%N.
Definition colon : char := 58%N.

Definition str_eqb (a b : str) : bool :=
  if list_eq_dec N.eq_dec a b then true else false.

(** [str.isspace] on one code point: the table of CPython's
    [_PyUnicode_IsWhitespace]. *)
Definition isspace (c : char) : bool :=
  ((9 <=? c) && (c <=? 13) || (28 <=? c) && (c <=? 32)
   || (c =? 133) || (c =? 160) || (c =? 5760)
   || (8192 <=? c) && (c <=? 8202)
   || (c =? 8232) || (c =? 8233) || (c =? 8239) || (c =? 8287)
   || (c =? 12288))%N.

(** [sep in s] for a one-character [sep]. *)
Definition str_contains (sep : char) (s : str) : bool :=
  existsb (N.eqb sep) s.

(** [s.split(sep, maxsplit)] for a one-character separator: scan from the
    left, cut at a separator while the budget allows ([None] is Python's
    default of -1, no limit); the piece being read is kept reversed in
    [cur]. *)
Fixpoint split_from (sep : char) (maxsplit : option nat) (cur : str) (s : str)
  : list str :=
  match s with
  | [] => [rev cur]
  | c :: rest =>
      if N.eqb c sep then
        match maxsplit with
        | None => rev cur :: split_from sep None [] rest
        | Some (S k) => rev cur :: split_from sep (Some k) [] rest
        | Some O => split_from sep (Some O) (c :: cur) rest
        end
      else split_from sep maxsplit (c :: cur) rest
  end.

Definition str_split (sep : char) (maxsplit : option nat) (s : str) : list str :=
  split_from sep maxsplit [] s.

(** [s.lstrip()], [s.rstrip()] and [s.strip()] with no argument. *)
Fixpoint lstrip (s : str) : str :=
  match s with
  | [] => []
  | c :: rest => if isspace c then lstrip rest else s
  end.

Definition rstrip (s : str) : str := rev (lstrip (rev s)).

Definition strip (s : str) : str := rstrip (lstrip s).

(** ** Python values, dictionaries and exceptions *)

Inductive pyval :=
| PStr (s : str)
| PInt (z : Z)
| PObjectId (oid : N)
| PNaN.

(** A [dict] keeps its keys in insertion order and holds each key once. *)
Definition pydict := list (str * pyval).

Definition dict_keys (d : pydict) : list str := List.map fst d.

Fixpoint dict_get (k : str) (d : pydict) : option pyval :=
  match d with
  | [] => None
  | (k', v) :: rest => if str_eqb k k' then Some v else dict_get k rest
  end.

(** [d.pop(k, None)]: the entry of [k] is removed when there is one, the
    other entries stay in place. *)
Fixpoint dict_pop (k : str) (d : pydict) : pydict :=
  match d with
  | [] => []
  | (k', v) :: rest => if str_eqb k k' then rest else (k', v) :: dict_pop k rest
  end.

Inductive exn :=
| ValueError (msg : string)
| NameError (name : string)
| CvError (msg : string)
| OtherError (msg : string).

Inductive result (A : Type) :=
| Ok (a : A)
| Raise (e : exn).
Arguments Ok {A} a.
Arguments Raise {A} e.

Definition bind {A B} (m : result A) (f : A -> result B) : result B :=
  match m with
  | Ok a => f a
  | Raise e => Raise e
  end.

Declare Scope py_scope.
Delimit Scope py_scope with py.
Notation "x <- m ;; k" := (bind m (fun x => k))
  (at level 61, m at next level, right associativity) : py_scope.
Notation "' p <- m ;; k" := (bind m (fun p => k))
  (at level 61, p pattern, m at next level, right associativity) : py_scope.
Open Scope py_scope.

(** [for x in xs: acc = body(acc, x)], stopping at the first exception. *)
Fixpoint for_each {A S} (xs : list A) (body : S -> A -> result S) (acc : S)
  : result S :=
  match xs with
  | [] => Ok acc
  | x :: rest => acc' <- body acc x ;; for_each rest body acc'
  end.

(** [a, b = xs]. *)
Definition unpack2 (xs : list str) : result (str * str) :=
  match xs with
  | [a; b] => Ok (a, b)
  | [] | [_] => Raise (ValueError "not enough values to unpack (expected 2)")
  | _ => Raise (ValueError "too many values to unpack (expected 2)")
  end.

(** ** pandas data frames

    A frame is its column labels and its rows, each row holding one cell
    per column. *)
Record DataFrame := mkDataFrame {
  columns : list str;
  rows : list (list pyval)
}.

(** Labels in order of first appearance. *)
Fixpoint add_keys (seen : list str) (ks : list str) : list str :=
  match ks with
  | [] => seen
  | k :: rest =>
      if existsb (str_eqb k) seen then add_keys seen rest
      else add_keys (seen ++ [k]) rest
  end.

Definition union_keys (data : list pydict) : list str :=
  fold_left (fun seen d => add_keys seen (dict_keys d)) data [].

Definition cell (d : pydict) (c : str) : pyval :=
  match dict_get c d with
  | Some v => v
  | None => PNaN
  end.

(** [pd.DataFrame(data)] for a list of dicts: the columns are the keys met,
    a key a record lacks gives NaN. *)
Definition DataFrame_of_records (data : list pydict) : DataFrame :=
  let cols := union_keys data in
  mkDataFrame cols (List.map (fun d => List.map (cell d) cols) data).

(** [pd.DataFrame({c1: [], c2: [], ...})]: labelled columns, no row. *)
Definition DataFrame_of_empty_columns (cols : list str) : DataFrame :=
  mkDataFrame cols [].

(** [df.empty]: some axis has length 0. *)
Definition df_empty (df : DataFrame) : bool :=
  match columns df, rows df with
  | [], _ | _, [] => true
  | _, _ => false
  end.

(** [df.to_dict(orient='records')]. *)
Definition to_dict_records (df : DataFrame) : list pydict :=
  List.map (fun r => combine (columns df) r) (rows df).

(** ** [parse_receipt] *)

Definition Field : str := lit "Field".
Definition Value : str := lit "Value".

Definition parse_line (data : list pydict) (line : str) : result (list pydict) :=
  if str_contains colon line then
    '(key, value) <- unpack2 (str_split colon (Some 1%nat) line) ;;
    Ok (data ++ [[(Field, PStr (strip key)); (Value, PStr (strip value))]])
  else Ok data.

Definition parse_receipt (text : str) : result DataFrame :=
  let lines := str_split nl None text in
  data <- for_each lines parse_line [] ;;
  let df := DataFrame_of_records data in
  Ok (if df_empty df
      then DataFrame_of_empty_columns [Field; Value]
      else df).

(** ** The words of the specification about a line

    "The substring before the first delimiter" and "the remainder after
    it", written as the specification says them; they are compared with
    what [str.split(':', 1)] returns below. *)

Fixpoint spec_before_first (c : char) (s : str) : str :=
  match s with
  | [] => []
  | x :: rest => if N.eqb x c then [] else x :: spec_before_first c rest
  end.

Fixpoint spec_after_first (c : char) (s : str) : str :=
  match s with
  | [] => []
  | x :: rest => if N.eqb x c then rest else spec_after_first c rest
  end.

(** The record the specification assigns to a delimiter-bearing line. *)
Definition spec_record (line : str) : pydict :=
  [(Field, PStr (strip (spec_before_first colon line)));
   (Value, PStr (strip (spec_after_first colon line)))].

Definition spec_row (line : str) : list pyval :=
  [PStr (strip (spec_before_first colon line));
   PStr (strip (spec_after_first colon line))].

Definition has_colon (line : str) : bool := str_contains colon line.

(** The lines of a text, as [parse_receipt] takes them. *)
Definition lines_of (text : str) : list str := str_split nl None text.

(** [sep.join(pieces)]. *)
Fixpoint str_join (sep : char) (pieces : list str) : str :=
  match pieces with
  | [] => []
  | [p] => p
  | p :: rest => p ++ sep :: str_join sep rest
  end.

(** The records of a frame returned by [parse_receipt]. *)
Definition records (r : result DataFrame) : list pydict :=
  match r with
  | Ok df => to_dict_records df
  | Raise _ => []
  end.

(** A string that does not start with white space. *)
Definition starts_clean (s : str) : Prop :=
  match s with
  | [] => True
  | c :: _ => isspace c = false
  end.

(** The number of delimiter-bearing lines. *)
Fixpoint count_colon_lines (lines : list str) : nat :=
  match lines with
  | [] => O
  | l :: rest =>
      if has_colon l then S (count_colon_lines rest) else count_colon_lines rest
  end.


(** ** Images and [ocr_core]

    A PIL image is one of the pixel layouts an uploaded file decodes to;
    a numpy array is two-dimensional (height, width) or three-dimensional
    (height, width, channels). *)

Inductive Image :=
| ImageL (px : list (list Z))
| ImageRGB (px : list (list (Z * Z * Z)))
| ImageRGBA (px : list (list (Z * Z * Z * Z))).

Inductive ndarray :=
| Arr2 (px : list (list Z))
| Arr3 (px : list (list (list Z))).

(** What [ocr_core] can be handed: a PIL image, or an array such as the
    one [cv2.threshold] returns. *)
Inductive image_like :=
| OfPIL (img : Image)
| OfArray (a : ndarray).

(** [np.array(image)]: a one-band image gives a 2-D array, an image with
    bands a 3-D array with the bands in PIL's order; an array is copied. *)
Definition np_array (image : image_like) : ndarray :=
  match image with
  | OfPIL (ImageL px) => Arr2 px
  | OfPIL (ImageRGB px) =>
      Arr3 (List.map (List.map (fun '(r, g, b) => [r; g; b])) px)
  | OfPIL (ImageRGBA px) =>
      Arr3 (List.map (List.map (fun '(r, g, b, a) => [r; g; b; a])) px)
  | OfArray a => a
  end.

(** The parts of OpenCV and Tesseract the source calls and does not
    contain: the weighted sum [cv2.COLOR_BGR2GRAY] takes of the channels
    0, 1 and 2 of a pixel (blue, green, red for OpenCV), the threshold
    Otsu's method picks, and the recognition engine. *)
Class Vision := {
  gray_of_bgr : Z -> Z -> Z -> Z;
  otsu_threshold : list (list Z) -> Z;
  image_to_string : ndarray -> string -> result str
}.

(** The number of channels of a 3-D array (its last dimension). *)
Definition channels (px : list (list (list Z))) : nat :=
  match px with
  | (p :: _) :: _ => List.length p
  | _ => O
  end.

Definition is_empty_grid {A} (px : list (list A)) : bool :=
  match px with
  | (_ :: _) :: _ => false
  | _ => true
  end.

(** [cv2.cvtColor(image, cv2.COLOR_BGR2GRAY)]: the source must have 3 or 4
    channels and must not be empty. *)
Definition cvtColor_BGR2GRAY `{Vision} (image : ndarray) : result ndarray :=
  match image with
  | Arr2 px =>
      if is_empty_grid px then Raise (CvError "(-215:Assertion failed) !_src.empty()")
      else Raise (CvError "Invalid number of channels in input image: scn is 1")
  | Arr3 px =>
      if is_empty_grid px then Raise (CvError "(-215:Assertion failed) !_src.empty()")
      else if (Nat.eqb (channels px) 3 || Nat.eqb (channels px) 4)%bool then
        Ok (Arr2 (List.map (List.map (fun p =>
              gray_of_bgr (nth 0 p 0%Z) (nth 1 p 0%Z) (nth 2 p 0%Z))) px))
      else Raise (CvError "Invalid number of channels in input image")
  end.

(** [THRESH_BINARY] with maximum 255: a pixel above the threshold becomes
    255, any other 0. *)
Definition binarize (t : Z) (px : list (list Z)) : list (list Z) :=
  List.map (List.map (fun v => if (t <? v)%Z then 255%Z else 0%Z)) px.

(** [cv2.threshold(gray, 0, 255, cv2.THRESH_BINARY | cv2.THRESH_OTSU)[1]]:
    the source must have one channel. *)
Definition threshold_BINARY_OTSU `{Vision} (gray : ndarray) : result ndarray :=
  match gray with
  | Arr2 px => Ok (Arr2 (binarize (otsu_threshold px) px))
  | Arr3 _ => Raise (CvError "(-215:Assertion failed) src.type() == CV_8UC1")
  end.

(** Lines 52 to 57 of [ocr_core]: the preprocessing before recognition. *)
Definition normalize `{Vision} (image : image_like) : result ndarray :=
  let image := np_array image in
  gray <- cvtColor_BGR2GRAY image ;;
  threshold_BINARY_OTSU gray.

Definition custom_config : string := "--oem 3 --psm 6".

Definition ocr_core `{Vision} (image : image_like) : result str :=
  gray <- normalize image ;;
  image_to_string gray custom_config.

(** A normalised image of the specification: one channel, every pixel 0
    or 255. *)
Definition is_binary (px : list (list Z)) : Prop :=
  Forall (Forall (fun v => v = 0%Z \/ v = 255%Z)) px.

(** ** The record store *)

Definition id_key : str := lit "_id".

(** A collection: its documents in natural order, the next identifier the
    store hands out, and whether the server answers. *)
Record Collection := mkCollection {
  docs : list pydict;
  next_oid : N;
  reachable : bool
}.

Definition has_key (k : str) (d : pydict) : bool :=
  existsb (str_eqb k) (dict_keys d).

(** A document gets an ["_id"] on insertion when it has none. *)
Fixpoint assign_ids (oid : N) (records : list pydict) : list pydict * N :=
  match records with
  | [] => ([], oid)
  | d :: rest =>
      if has_key id_key d then
        let '(ds, n) := assign_ids oid rest in (d :: ds, n)
      else
        let '(ds, n) := assign_ids (N.succ oid) rest in
        (((id_key, PObjectId oid) :: d) :: ds, n)
  end.

Definition insert_many (c : Collection) (records : list pydict)
  : result Collection :=
  if negb (reachable c) then Raise (OtherError "ServerSelectionTimeoutError")
  else match records with
       | [] => Raise (OtherError "documents must be a non-empty list")
       | _ =>
           let '(ds, n) := assign_ids (next_oid c) records in
           Ok (mkCollection (docs c ++ ds) n true)
       end.

(** [list(collection.find())]. *)
Definition find (c : Collection) : result (list pydict) :=
  if reachable c then Ok (docs c)
  else Raise (OtherError "ServerSelectionTimeoutError").

(** ** The page: what a run of the script shows *)

Inductive ui_event :=
| SidebarSuccess (msg : string)
| SidebarError (msg : string) (e : exn)
| PageConfig
| Title (msg : string)
| Markdown (msg : string)
| SidebarHeader (msg : string)
| ShowImage (img : Image)
| Subheader (msg : string)
| TextArea (text : str)
| Grid (df : DataFrame)
| Success (msg : string)
| Error (msg : string) (e : exn)
| Warning (msg : string)
| Info (msg : string)
| ShowDataFrame (df : DataFrame).

(** The state of a run: what was shown so far, and the module-level name
    [collection] ([None] while the name is unbound). *)
Record world := mkWorld {
  ui : list ui_event;
  collection : option Collection
}.

(** A statement: it ends normally or with an exception, and changes the
    state either way. *)
Definition stmt (A : Type) := world -> result A * world.

Definition ret {A} (a : A) : stmt A := fun w => (Ok a, w).

Definition seq {A B} (m : stmt A) (k : A -> stmt B) : stmt B :=
  fun w => match m w with
           | (Ok a, w') => k a w'
           | (Raise e, w') => (Raise e, w')
           end.

Declare Scope stmt_scope.
Delimit Scope stmt_scope with stmt.
Notation "x <~ m ; k" := (seq m (fun x => k))
  (at level 61, m at next level, right associativity) : stmt_scope.
Notation "m ;;; k" := (seq m (fun _ => k))
  (at level 61, right associativity) : stmt_scope.

(** A call that may raise. *)
Definition call {A} (r : result A) : stmt A := fun w => (r, w).

(** [try: body except Exception as e: handler(e)]. *)
Definition try_except (body : stmt unit) (handler : exn -> stmt unit)
  : stmt unit :=
  fun w => match body w with
           | (Ok tt, w') => (Ok tt, w')
           | (Raise e, w') => handler e w'
           end.

Definition show (e : ui_event) : stmt unit :=
  fun w => (Ok tt, mkWorld (ui w ++ [e]) (collection w)).

(** Reading the global [collection]; an unbound name raises. *)
Definition get_collection : stmt Collection :=
  fun w => match collection w with
           | Some c => (Ok c, w)
           | None => (Raise (NameError "collection"), w)
           end.

Definition set_collection (c : Collection) : stmt unit :=
  fun w => (Ok tt, mkWorld (ui w) (Some c)).

(** What the script is given in one run. *)
Record session := mkSession {
  connect : result Collection;
  uploaded_file : option (result Image);
  edit : DataFrame -> DataFrame;
  save_clicked : bool;
  show_stored : bool
}.

Definition msg_connected : string := "Connected to MongoDB successfully!".
Definition msg_connect_error : string := "Error connecting to MongoDB: ".
Definition msg_title : string := "🧾 Receipt OCR and Data Extraction App".
Definition msg_intro : string := "
    This application allows you to upload receipt images, extract text using OCR, edit the extracted data, and store it in a MongoDB database.
    ".
Definition msg_upload_header : string := "Upload Receipt Image".
Definition msg_extracted : string := "📄 Extracted Text".
Definition msg_editable : string := "✏️ Editable Data Table".
Definition msg_no_pairs : string :=
  "⚠️ No key-value pairs found in the extracted text. Please check the receipt format or improve the parsing logic.".
Definition msg_saved : string := "✅ Data saved to MongoDB successfully!".
Definition msg_save_error : string :=
  "❌ An error occurred while saving to MongoDB: ".
Definition msg_no_data : string := "No data found in MongoDB.".
Definition msg_fetch_error : string := "Error fetching data from MongoDB: ".
Definition msg_upload : string :=
  "📥 Please upload a receipt image to get started.".
Definition msg_rule : string := "---".
Definition msg_footer : string :=
  "Developed with ❤️ using Streamlit, Tesseract OCR, and MongoDB.".

Open Scope stmt_scope.

(** Lines 35 to 41: the client is made when the module is loaded. *)
Definition init_mongo (s : session) : stmt unit :=
  try_except
    (c <~ call (connect s) ;
     set_collection c ;;;
     show (SidebarSuccess msg_connected))
    (fun e => show (SidebarError msg_connect_error e)).

(** Lines 139 to 146. *)
Definition save_block (s : session) (updated_df : DataFrame) : stmt unit :=
  if save_clicked s then
    let records := to_dict_records updated_df in
    try_except
      (c <~ get_collection ;
       c' <~ call (insert_many c records) ;
       set_collection c' ;;;
       show (Success msg_saved))
      (fun e => show (Error msg_save_error e))
  else ret tt.

(** Lines 156 and 157: the ["_id"] of every record is popped. *)
Definition strip_ids (stored_data : list pydict) : list pydict :=
  List.map (dict_pop id_key) stored_data.

(** Lines 151 to 163. *)
Definition stored_block (s : session) : stmt unit :=
  if show_stored s then
    try_except
      (c <~ get_collection ;
       stored_data <~ call (find c) ;
       match stored_data with
       | _ :: _ =>
           let stored_data := strip_ids stored_data in
           let stored_df := DataFrame_of_records stored_data in
           show (ShowDataFrame stored_df)
       | [] => show (Info msg_no_data)
       end)
      (fun e => show (Error msg_fetch_error e))
  else ret tt.

Definition main `{Vision} (s : session) : stmt unit :=
  show PageConfig ;;;
  show (Title msg_title) ;;;
  show (Markdown msg_intro) ;;;
  show (SidebarHeader msg_upload_header) ;;;
  match uploaded_file s with
  | Some opened =>
      image <~ call opened ;
      show (ShowImage image) ;;;
      extracted_text <~ call (ocr_core (OfPIL image)) ;
      show (Subheader msg_extracted) ;;;
      show (TextArea extracted_text) ;;;
      df <~ call (parse_receipt extracted_text) ;
      (if negb (df_empty df) then
         show (Subheader msg_editable) ;;;
         show (Grid df) ;;;
         let updated_df := edit s df in
         save_block s updated_df
       else show (Warning msg_no_pairs)) ;;;
      stored_block s
  | None => show (Info msg_upload)
  end ;;;
  show (Markdown msg_rule) ;;;
  show (Markdown msg_footer).

(** The whole script: module level, then [main()]. *)
Definition script `{Vision} (s : session) : stmt unit :=
  init_mongo s ;;; main s.

Definition run `{Vision} (s : session) : result unit * world :=
  script s (mkWorld [] None).

Close Scope stmt_scope.

(** What a run shows of the recognition path: the image, the headings,
    the text, the table and the warning. *)
Definition is_ocr_event (e : ui_event) : bool :=
  match e with
  | ShowImage _ | Subheader _ | TextArea _ | Grid _ | Warning _ => true
  | _ => false
  end.

Definition ocr_view (w : world) : list ui_event := filter is_ocr_event (ui w).

(** A recognition engine and an OpenCV to run examples with: the 15-bit
    weights of OpenCV 4, the threshold 0, and an engine that reads the
    same text on every image. *)
Definition sample_vision (text : str) : Vision := {|
  gray_of_bgr := fun b g r =>
    Z.shiftr (b * 3735 + g * 19235 + r * 9798 + 16384) 15;
  otsu_threshold := fun _ => 0%Z;
  image_to_string := fun _ _ => Ok text
|}.

(** A receipt text to run examples with. *)
Definition sample_receipt : str := lit "Total:
:5.00
Time: 10:30".



(** The session with another outcome of the connection. *)
Definition with_connect (s : session) (r : result Collection) : session :=
  mkSession r (uploaded_file s) (edit s) (save_clicked s) (show_stored s).

(** What the recognition path alone decides of a run: what it shows, and
    how the run ends.  It reads the upload and nothing of the store. *)
Definition ocr_path `{Vision} (s : session) : list ui_event * result unit :=
  match uploaded_file s with
  | None => ([], Ok tt)
  | Some (Raise e) => ([], Raise e)
  | Some (Ok image) =>
      match ocr_core (OfPIL image) with
      | Raise e => ([ShowImage image], Raise e)
      | Ok text =>
          let shown :=
            [ShowImage image; Subheader msg_extracted; TextArea text] in
          match parse_receipt text with
          | Raise e => (shown, Raise e)
          | Ok df =>
              if negb (df_empty df)
              then (shown ++ [Subheader msg_editable; Grid df], Ok tt)
              else (shown ++ [Warning msg_no_pairs], Ok tt)
          end
      end
  end.

(** A stored collection and a session to run examples with. *)
Definition sample_collection : Collection :=
  mkCollection
    [[(id_key, PObjectId 1); (Field, PStr (lit "Total")); (Value, PStr (lit "5.00"))];
     [(id_key, PObjectId 2); (Field, PStr (lit "Time")); (Value, PStr (lit "10:30"))]]
    3 true.

Definition sample_image : Image := ImageRGB [[(255, 255, 255); (0, 0, 0)]%Z].

Definition sample_session : session :=
  mkSession (Ok sample_collection) (Some (Ok sample_image))
            (fun df => df) true true.

(** The state after the module-level statements of a run. *)
Definition after_init (s : session) : world :=
  snd (init_mongo s (mkWorld [] None)).

Definition plain_text : str := lit "Random text without colon".


(** ** Further notions used to state what the code does *)

(** A string with no white space at either end. *)
Definition trimmed (s : str) : Prop := starts_clean s /\ starts_clean (rev s).

(** A cell as [parse_receipt] writes it: a trimmed string on one line. *)
Definition clean_cell (v : pyval) : Prop :=
  exists s, v = PStr s /\ trimmed s /\ ~ In nl s.

(** The row lengths of an array: its height and the width of each row. *)
Definition dims (a : ndarray) : list nat :=
  match a with
  | Arr2 px => List.map (@List.length Z) px
  | Arr3 px => List.map (@List.length (list Z)) px
  end.

(** An RGBA grid without its fourth band. *)
Definition drop_alpha (px : list (list (Z * Z * Z * Z)))
  : list (list (Z * Z * Z)) :=
  List.map (List.map (fun '(r, g, b, _) => (r, g, b))) px.

(** What every run shows first and last. *)
Definition page_header : list ui_event :=
  [PageConfig; Title msg_title; Markdown msg_intro;
   SidebarHeader msg_upload_header].

Definition page_footer : list ui_event :=
  [Markdown msg_rule; Markdown msg_footer].

(** The documents [insert_many] adds for a list of records. *)
Definition inserted (c : Collection) (records : list pydict) : list pydict :=
  fst (assign_ids (next_oid c) records).

(** Sessions to run examples with: a grayscale upload, and an RGBA one. *)
Definition gray_session : session :=
  mkSession (Ok sample_collection) (Some (Ok (ImageL [[128%Z]])))
            (fun df => df) false false.

Definition sample_rgba : list (list (Z * Z * Z * Z)) :=
  [[(255, 255, 255, 0); (0, 0, 0, 255)]%Z].

(** The frame and the records of a text, as [parse_receipt] makes them. *)
Definition parsed (text : str) : DataFrame :=
  mkDataFrame [Field; Value]
              (List.map spec_row (filter has_colon (lines_of text))).

Definition extracted (text : str) : list pydict :=
  List.map spec_record (filter has_colon (lines_of text)).

(** The collection after [insert_many] of records that carry no ["_id"]. *)
Definition after_insert (c : Collection) (records : list pydict) : Collection :=
  mkCollection (docs c ++ inserted c records)
               (snd (assign_ids (next_oid c) records)) true.

(** What the recognition path shows when a table was extracted. *)
Definition table_events (image : Image) (text : str) (df : DataFrame)
  : list ui_event :=
  [ShowImage image; Subheader msg_extracted; TextArea text;
   Subheader msg_editable; Grid df].

(** Sessions to run examples with: no upload, an upload that does not
    open, and the second run of [sample_session] on the store its first
    run left. *)
Definition idle_session : session :=
  mkSession (Ok sample_collection) None (fun df => df) true true.

Definition broken_session : session :=
  mkSession (Ok sample_collection)
            (Some (Raise (OtherError "UnidentifiedImageError")))
            (fun df => df) true true.

Definition sample_saved : Collection :=
  after_insert sample_collection (extracted sample_receipt).


(** ** The lines of a text, said without [split]

    [ls] are the lines of [text]: joined with line breaks they give the
    text, and no line holds a line break.  There is always one line at
    least. *)
Definition is_lines_of (text : str) (ls : list str) : Prop :=
  ls <> [] /\ (forall l, In l ls -> ~ In nl l) /\ text = str_join nl ls.

(** Whether [':'] is among the characters of a line. *)
Definition spec_holds_colon (l : str) : bool :=
  if in_dec N.eq_dec colon l then true else false.

(** The number of lines with a [':'] among their characters. *)
Definition spec_count_colon_lines (ls : list str) : nat :=
  List.length (filter spec_holds_colon ls).

(** Lines to run examples with: a line without [':'], white space around
    field and value, a carriage return at a line end, further [':'] in a
    value, and a value of blanks only. *)
Definition counted_lines : list str :=
  [lit "Total:"; lit "thank you"; lit ":5.00"; lit "Time: 10:30"].

Definition padded_lines : list str :=
  [lit "Total:   "; lit "  Time : 10:30 " ++ [13%N]; lit ":5.00"].

(** * Properties *)

Example parse_round_trip :
  parse_receipt (lit "Total: 5.00
Time: 10:30") =
  Ok (mkDataFrame [Field; Value]
        [[PStr (lit "Total"); PStr (lit "5.00")];
         [PStr (lit "Time"); PStr (lit "10:30")]]).
Proof. vm_compute. reflexivity. Qed.


(** ** Facts about the string primitives *)

Section Strings.

Variable sep : char.

Lemma str_contains_app (a b : str) :
  str_contains sep (a ++ b) = str_contains sep a || str_contains sep b.
Proof. unfold str_contains. apply existsb_app. Qed.

Lemma str_contains_false_iff (s : str) :
  str_contains sep s = false <-> ~ In sep s.
Proof.
  unfold str_contains. induction s as [|x s IH]; simpl.
  - tauto.
  - rewrite orb_false_iff, IH, N.eqb_neq. intuition congruence.
Qed.

Lemma str_contains_true_iff (s : str) :
  str_contains sep s = true <-> In sep s.
Proof.
  unfold str_contains. rewrite existsb_exists. split.
  - intros [x [Hin Hx]]. apply N.eqb_eq in Hx. now subst.
  - intros Hin. exists sep. split; [assumption | apply N.eqb_refl].
Qed.

Lemma spec_before_first_app (pre post : str) :
  ~ In sep pre -> spec_before_first sep (pre ++ sep :: post) = pre.
Proof.
  induction pre as [|x pre IH]; simpl; intros Hnot.
  - now rewrite N.eqb_refl.
  - destruct (N.eqb_spec x sep) as [->|_]; [tauto|].
    f_equal. apply IH. tauto.
Qed.

Lemma spec_after_first_app (pre post : str) :
  ~ In sep pre -> spec_after_first sep (pre ++ sep :: post) = post.
Proof.
  induction pre as [|x pre IH]; simpl; intros Hnot.
  - now rewrite N.eqb_refl.
  - destruct (N.eqb_spec x sep) as [->|_]; [tauto|].
    apply IH. tauto.
Qed.

Lemma spec_before_first_no_sep (s : str) : ~ In sep (spec_before_first sep s).
Proof.
  induction s as [|x s IH]; simpl; [tauto|].
  destruct (N.eqb_spec x sep) as [->|Hne]; simpl; [tauto|].
  intros [H|H]; [congruence | tauto].
Qed.

Lemma first_sep_decompose (s : str) :
  str_contains sep s = true ->
  s = spec_before_first sep s ++ sep :: spec_after_first sep s.
Proof.
  unfold str_contains.
  induction s as [|x s IH]; simpl; [discriminate|].
  rewrite (N.eqb_sym sep x).
  destruct (N.eqb_spec x sep) as [->|_]; simpl; [reflexivity|].
  intros H. f_equal. now apply IH.
Qed.

(** With the budget spent, the rest of the string is one piece. *)
Lemma split_from_spent (cur s : str) :
  split_from sep (Some O) cur s = [rev cur ++ s].
Proof.
  revert cur. induction s as [|x s IH]; intros cur; simpl.
  - now rewrite app_nil_r.
  - assert (E : split_from sep (Some O) (x :: cur) s = [rev cur ++ x :: s]).
    { rewrite IH. simpl. now rewrite <- app_assoc. }
    destruct (N.eqb x sep); exact E.
Qed.

(** [s.split(sep, 1)] cuts at the first separator. *)
Lemma split_from_once (cur s : str) :
  str_contains sep s = true ->
  split_from sep (Some 1%nat) cur s =
  [rev cur ++ spec_before_first sep s; spec_after_first sep s].
Proof.
  unfold str_contains.
  revert cur. induction s as [|x s IH]; intros cur; simpl; [discriminate|].
  rewrite (N.eqb_sym sep x).
  destruct (N.eqb_spec x sep) as [->|_]; simpl; intros H.
  - rewrite split_from_spent. simpl. now rewrite app_nil_r.
  - rewrite IH by assumption. simpl. now rewrite <- app_assoc.
Qed.

Lemma str_split_once (s : str) :
  str_contains sep s = true ->
  str_split sep (Some 1%nat) s =
  [spec_before_first sep s; spec_after_first sep s].
Proof. intros H. unfold str_split. now rewrite split_from_once. Qed.

(** Without a separator nothing is cut, whatever the budget. *)
Lemma split_from_no_sep (m : option nat) (cur s : str) :
  str_contains sep s = false -> split_from sep m cur s = [rev cur ++ s].
Proof.
  unfold str_contains.
  revert cur. induction s as [|x s IH]; intros cur; simpl.
  - now rewrite app_nil_r.
  - rewrite (N.eqb_sym sep x).
    destruct (N.eqb x sep); simpl; [discriminate|].
    intros H. rewrite IH by assumption. simpl. now rewrite <- app_assoc.
Qed.

(** Unlimited split of [a ++ sep :: b]: the pieces of [a] but the last,
    then the last piece of [a] glued to nothing, then the pieces of [b]. *)
Lemma split_from_app_sep (cur a b : str) :
  split_from sep None cur (a ++ sep :: b) =
  split_from sep None cur a ++ split_from sep None [] b.
Proof.
  revert cur. induction a as [|x a IH]; intros cur; simpl.
  - now rewrite N.eqb_refl.
  - destruct (N.eqb x sep); [rewrite IH; reflexivity | apply IH].
Qed.

Lemma str_split_app_sep (a b : str) :
  str_split sep None (a ++ sep :: b) =
  str_split sep None a ++ str_split sep None b.
Proof. apply split_from_app_sep. Qed.

Lemma split_from_nonempty (m : option nat) (cur s : str) :
  split_from sep m cur s <> [].
Proof.
  revert m cur. induction s as [|x s IH]; intros m cur; simpl.
  - discriminate.
  - destruct (N.eqb x sep); [destruct m as [[|k]|]|]; try discriminate; apply IH.
Qed.

(** No piece of an unlimited split holds the separator. *)
Lemma split_from_pieces (cur s piece : str) :
  ~ In sep cur ->
  In piece (split_from sep None cur s) -> ~ In sep piece.
Proof.
  revert cur. induction s as [|x s IH]; intros cur Hcur; simpl.
  - intros [<-|[]]. now rewrite <- in_rev.
  - destruct (N.eqb_spec x sep) as [->|Hne].
    + intros [<-|Hin]; [now rewrite <- in_rev|].
      apply (IH []); [simpl; tauto | assumption].
    + apply IH. simpl. intros [H|H]; [congruence | tauto].
Qed.

Lemma str_join_cons (p : str) (rest : list str) :
  rest <> [] -> str_join sep (p :: rest) = p ++ sep :: str_join sep rest.
Proof. destruct rest; [congruence | reflexivity]. Qed.

(** Joining the pieces back gives the string. *)
Lemma join_split_from (cur s : str) :
  str_join sep (split_from sep None cur s) = rev cur ++ s.
Proof.
  revert cur. induction s as [|x s IH]; intros cur.
  - simpl. now rewrite app_nil_r.
  - cbn [split_from]. destruct (N.eqb_spec x sep) as [->|_].
    + rewrite str_join_cons by apply split_from_nonempty.
      now rewrite IH.
    + rewrite IH. simpl. now rewrite <- app_assoc.
Qed.

Lemma str_join_split (s : str) : str_join sep (str_split sep None s) = s.
Proof. apply join_split_from. Qed.

(** Splitting a join of separator-free pieces gives the pieces. *)
Lemma str_split_join (pieces : list str) :
  pieces <> [] ->
  (forall p, In p pieces -> ~ In sep p) ->
  str_split sep None (str_join sep pieces) = pieces.
Proof.
  induction pieces as [|p rest IH]; intros Hne Hall; [congruence|].
  destruct rest as [|q rest].
  - simpl. unfold str_split. rewrite split_from_no_sep.
    + reflexivity.
    + apply str_contains_false_iff. apply Hall. now left.
  - change (str_join sep (p :: q :: rest)) with (p ++ sep :: str_join sep (q :: rest)).
    rewrite str_split_app_sep, IH.
    + unfold str_split at 1. rewrite split_from_no_sep; [reflexivity|].
      apply str_contains_false_iff. apply Hall. now left.
    + discriminate.
    + intros r Hr. apply Hall. now right.
Qed.

End Strings.

(** ** What [strip] removes *)

Lemma forallb_rev (A : Type) (f : A -> bool) (l : list A) :
  forallb f (rev l) = forallb f l.
Proof.
  induction l as [|x l IH]; simpl; [reflexivity|].
  rewrite forallb_app, IH. simpl. rewrite andb_true_r. apply andb_comm.
Qed.

Lemma lstrip_spec (s : str) :
  exists ws, s = ws ++ lstrip s /\ forallb isspace ws = true
             /\ starts_clean (lstrip s).
Proof.
  induction s as [|c s (ws & E & Hws & Hc)]; simpl.
  - exists []. repeat split.
  - destruct (isspace c) eqn:Hsp.
    + exists (c :: ws). simpl. rewrite Hsp, Hws. repeat split; [|assumption].
      now f_equal.
    + exists []. simpl. repeat split. assumption.
Qed.

(** [strip] cuts a run of white space at each end and nothing else, and
    what is left neither starts nor ends with white space. *)
Lemma strip_spec (s : str) :
  exists a b, s = a ++ strip s ++ b
              /\ forallb isspace a = true /\ forallb isspace b = true
              /\ starts_clean (strip s) /\ starts_clean (rev (strip s)).
Proof.
  destruct (lstrip_spec s) as (a & Ea & Ha & Hhead).
  destruct (lstrip_spec (rev (lstrip s))) as (w & Ew & Hw & Hlast).
  assert (Et : lstrip s = strip s ++ rev w).
  { unfold strip, rstrip. rewrite <- rev_app_distr, <- Ew. now rewrite rev_involutive. }
  exists a, (rev w). repeat split.
  - now rewrite <- Et.
  - assumption.
  - now rewrite forallb_rev.
  - rewrite Et in Hhead. destruct (strip s); simpl in *; [exact I | assumption].
  - unfold strip, rstrip. now rewrite rev_involutive.
Qed.

Lemma lstrip_clean (s : str) : starts_clean s -> lstrip s = s.
Proof. destruct s as [|c s]; simpl; [reflexivity|]. now intros ->. Qed.

Lemma strip_idempotent (s : str) : strip (strip s) = strip s.
Proof.
  destruct (strip_spec s) as (_ & _ & _ & _ & _ & Hh & Hl).
  unfold strip at 1. rewrite (lstrip_clean _ Hh).
  unfold rstrip. rewrite (lstrip_clean _ Hl). apply rev_involutive.
Qed.

(** ** The loop of [parse_receipt] *)

Lemma count_colon_lines_filter (lines : list str) :
  count_colon_lines lines = List.length (filter has_colon lines).
Proof.
  induction lines as [|l rest IH]; simpl; [reflexivity|].
  destruct (has_colon l); simpl; now rewrite IH.
Qed.

Lemma parse_line_colon (data : list pydict) (line : str) :
  has_colon line = true ->
  parse_line data line = Ok (data ++ [spec_record line]).
Proof.
  unfold has_colon, parse_line. intros H. rewrite H.
  now rewrite str_split_once.
Qed.

Lemma parse_line_plain (data : list pydict) (line : str) :
  has_colon line = false -> parse_line data line = Ok data.
Proof. unfold has_colon, parse_line. now intros ->. Qed.

Lemma for_each_parse_line (lines : list str) (data : list pydict) :
  for_each lines parse_line data =
  Ok (data ++ List.map spec_record (filter has_colon lines)).
Proof.
  revert data. induction lines as [|l rest IH]; intros data; simpl.
  - now rewrite app_nil_r.
  - destruct (has_colon l) eqn:Hl.
    + rewrite parse_line_colon by assumption. simpl.
      rewrite IH. now rewrite <- app_assoc.
    + rewrite parse_line_plain by assumption. simpl. apply IH.
Qed.

Lemma union_keys_from (ls : list str) :
  fold_left (fun seen d => add_keys seen (dict_keys d))
            (List.map spec_record ls) [Field; Value] = [Field; Value].
Proof. induction ls as [|l ls IH]; simpl; [reflexivity | exact IH]. Qed.

Lemma DataFrame_of_spec_records (l : str) (ls : list str) :
  DataFrame_of_records (List.map spec_record (l :: ls)) =
  mkDataFrame [Field; Value] (List.map spec_row (l :: ls)).
Proof.
  unfold DataFrame_of_records.
  assert (E : union_keys (List.map spec_record (l :: ls)) = [Field; Value]).
  { unfold union_keys. simpl. exact (union_keys_from ls). }
  rewrite E. f_equal. rewrite map_map. reflexivity.
Qed.

(** [parse_receipt] never raises, and its frame holds one row per
    delimiter-bearing line, in the order of the lines. *)
Lemma parse_receipt_frame (text : str) :
  parse_receipt text =
  Ok (mkDataFrame [Field; Value]
        (List.map spec_row (filter has_colon (lines_of text)))).
Proof.
  unfold parse_receipt. rewrite for_each_parse_line. simpl.
  fold (lines_of text).
  destruct (filter has_colon (lines_of text)) as [|l ls].
  - reflexivity.
  - rewrite DataFrame_of_spec_records. reflexivity.
Qed.

Lemma records_parse_receipt (text : str) :
  records (parse_receipt text) =
  List.map spec_record (filter has_colon (lines_of text)).
Proof.
  rewrite parse_receipt_frame. unfold records, to_dict_records. simpl.
  rewrite map_map. reflexivity.
Qed.

Lemma lines_of_app_nl (a b : str) :
  lines_of (a ++ nl :: b) = lines_of a ++ lines_of b.
Proof. apply str_split_app_sep. Qed.

Lemma lines_of_join (lines : list str) :
  lines <> [] -> (forall l, In l lines -> ~ In nl l) ->
  lines_of (str_join nl lines) = lines.
Proof. apply str_split_join. Qed.

(** ** The record extractor *)

Example parse_empty_value :
  parse_receipt (lit "Total:") =
  Ok (mkDataFrame [Field; Value] [[PStr (lit "Total"); PStr []]]).
Proof. vm_compute. reflexivity. Qed.

Example parse_empty_field :
  parse_receipt (lit ":5.00") =
  Ok (mkDataFrame [Field; Value] [[PStr []; PStr (lit "5.00")]]).
Proof. vm_compute. reflexivity. Qed.

Example parse_further_colons :
  parse_receipt (lit "Time: 10:30") =
  Ok (mkDataFrame [Field; Value] [[PStr (lit "Time"); PStr (lit "10:30")]]).
Proof. vm_compute. reflexivity. Qed.

Example parse_no_colon :
  parse_receipt (lit "Random text without colon") =
  Ok (mkDataFrame [Field; Value] []).
Proof. vm_compute. reflexivity. Qed.

(** Equal lines give equal records, and both are kept. *)
Example parse_keeps_duplicates :
  records (parse_receipt (lit "a: 1
a: 1")) =
  [[(Field, PStr (lit "a")); (Value, PStr (lit "1"))];
   [(Field, PStr (lit "a")); (Value, PStr (lit "1"))]].
Proof. vm_compute. reflexivity. Qed.

(** C3: the records are the records of the delimiter-bearing lines, one
    for one and in the order of the lines; and the records of two texts
    put one after the other on separate lines are the records of the first
    followed by the records of the second: nothing is reordered, dropped
    as a duplicate or merged. *)
Theorem parse_receipt_order (text : str) :
  (exists df,
     parse_receipt text = Ok df
     /\ to_dict_records df =
        List.map spec_record (filter has_colon (lines_of text)))
  /\ (forall a b : str,
        records (parse_receipt (a ++ nl :: b)) =
        records (parse_receipt a) ++ records (parse_receipt b)).
Proof.
  split.
  - eexists. split; [apply parse_receipt_frame|].
    unfold to_dict_records. cbn [rows columns]. now rewrite map_map.
  - intros a b. rewrite !records_parse_receipt, lines_of_app_nl.
    now rewrite filter_app, map_app.
Qed.

(** C9: the frame [parse_receipt] returns has the two columns ["Field"]
    and ["Value"], in this order, and every row has two cells; it has them
    also when no record was extracted, the number of rows being the number
    of delimiter-bearing lines. *)
Theorem parse_receipt_columns (text : str) :
  exists df,
    parse_receipt text = Ok df
    /\ columns df = [lit "Field"; lit "Value"]
    /\ Forall (fun r => List.length r = 2%nat) (rows df)
    /\ List.length (rows df) = count_colon_lines (lines_of text).
Proof.
  eexists. split; [apply parse_receipt_frame|].
  cbn [rows columns]. repeat split.
  - apply Forall_forall. intros r Hr. apply in_map_iff in Hr.
    now destruct Hr as (line & <- & _).
  - now rewrite length_map, count_colon_lines_filter.
Qed.

Example parse_empty_text :
  parse_receipt [] = Ok (mkDataFrame [lit "Field"; lit "Value"] []).
Proof. reflexivity. Qed.

Lemma lines_of_trailing_nl (text : str) :
  lines_of (text ++ [nl]) = lines_of text ++ [[]].
Proof. apply (lines_of_app_nl text []). Qed.

(** C10: a newline put at the end of a text changes nothing in what
    [parse_receipt] returns; it only adds an empty last line, which holds
    no [':']. *)
Theorem parse_receipt_trailing_newline (text : str) :
  parse_receipt (text ++ [nl]) = parse_receipt text
  /\ lines_of (text ++ [nl]) = lines_of text ++ [[]]
  /\ has_colon [] = false.
Proof.
  repeat split; [|apply lines_of_trailing_nl].
  rewrite !parse_receipt_frame, lines_of_trailing_nl, filter_app.
  simpl. now rewrite app_nil_r.
Qed.

(** [parse_receipt] returns a frame on every text. *)
Lemma parse_receipt_total (text : str) :
  exists df, parse_receipt text = Ok df.
Proof. eexists. apply parse_receipt_frame. Qed.

(** ** The image normaliser *)

Section Normaliser.

Context `{V : Vision}.

Lemma cvtColor_rejects_2d (px : list (list Z)) :
  exists msg, cvtColor_BGR2GRAY (Arr2 px) = Raise (CvError msg).
Proof. unfold cvtColor_BGR2GRAY. destruct (is_empty_grid px); eauto. Qed.

(** An RGB image that is not empty is accepted, and what comes back has
    one channel. *)
Lemma normalize_rgb (px : list (list (Z * Z * Z))) :
  is_empty_grid px = false ->
  exists out, normalize (OfPIL (ImageRGB px)) = Ok (Arr2 out).
Proof.
  intros Hne. unfold normalize, np_array, cvtColor_BGR2GRAY.
  destruct px as [|[|[[r g] b] row] px]; try discriminate.
  cbn. eauto.
Qed.

Lemma normalize_output_2d (image : image_like) (n : ndarray) :
  normalize image = Ok n -> exists px, n = Arr2 px.
Proof.
  unfold normalize. destruct (cvtColor_BGR2GRAY (np_array image)) as [g|e] eqn:E;
    cbn; [|discriminate].
  destruct g as [px|px]; cbn; [|discriminate].
  intros [= <-]. eauto.
Qed.

(** Thresholding alone leaves a binary image as it is, for every
    threshold from 0 to 254. *)
Lemma binarize_binary (t : Z) (px : list (list Z)) :
  (0 <= t < 255)%Z -> is_binary px -> binarize t px = px.
Proof.
  intros Ht Hb. unfold binarize.
  induction Hb as [|row px Hrow _ IH]; simpl; [reflexivity|].
  f_equal; [|exact IH].
  induction Hrow as [|v row Hv _ IHr]; simpl; [reflexivity|].
  f_equal; [|exact IHr].
  destruct Hv as [-> | ->].
  - destruct (Z.ltb_spec t 0); [lia | reflexivity].
  - destruct (Z.ltb_spec t 255); [reflexivity | lia].
Qed.

(** C5: a one-band (grayscale) image decodes to a pixel grid, and the
    preprocessing of [ocr_core] raises on it for every such grid:
    [np.array] gives a 2-D array and [cv2.COLOR_BGR2GRAY] takes 3 or 4
    channels only.  So does [ocr_core] as a whole. *)
Theorem normalize_grayscale_raises (px : list (list Z)) :
  exists msg,
    normalize (OfPIL (ImageL px)) = Raise (CvError msg)
    /\ ocr_core (OfPIL (ImageL px)) = Raise (CvError msg).
Proof.
  destruct (cvtColor_rejects_2d px) as [msg E]. exists msg.
  unfold ocr_core, normalize. cbn [np_array]. rewrite E. split; reflexivity.
Qed.

(** C6: normalising again what the normaliser returned raises, whatever
    the image was: the result has one channel, and the grayscale step
    rejects it.  No normalised image is a fixed point of [normalize]. *)
Theorem renormalize_raises :
  (forall px : list (list Z),
      exists msg, normalize (OfArray (Arr2 px)) = Raise (CvError msg))
  /\ (forall image : image_like,
         match normalize image with
         | Ok n => exists msg, normalize (OfArray n) = Raise (CvError msg)
         | Raise _ => True
         end).
Proof.
  assert (H2 : forall px : list (list Z),
             exists msg, normalize (OfArray (Arr2 px)) = Raise (CvError msg)).
  { intros px. destruct (cvtColor_rejects_2d px) as [msg E]. exists msg.
    unfold normalize. cbn [np_array]. now rewrite E. }
  split; [exact H2|].
  intros image. destruct (normalize image) as [n|e] eqn:E; [|exact I].
  destruct (normalize_output_2d _ E) as [px ->]. apply H2.
Qed.

End Normaliser.

Example normalize_gray_pixel :
  @normalize (sample_vision []) (OfPIL (ImageL [[128%Z]])) =
  Raise (CvError "Invalid number of channels in input image: scn is 1").
Proof. reflexivity. Qed.

Example normalize_binary_again :
  @normalize (sample_vision []) (OfArray (Arr2 [[0%Z; 255%Z]])) =
  Raise (CvError "Invalid number of channels in input image: scn is 1").
Proof. reflexivity. Qed.

(** The bands reach OpenCV in PIL's order, red first: a pure red pixel is
    weighted as blue. *)
Example red_weighted_as_blue :
  @cvtColor_BGR2GRAY (sample_vision [])
     (np_array (OfPIL (ImageRGB [[(255%Z, 0%Z, 0%Z)]]))) = Ok (Arr2 [[29%Z]])
  /\ @cvtColor_BGR2GRAY (sample_vision []) (Arr3 [[[0%Z; 0%Z; 255%Z]]])
     = Ok (Arr2 [[76%Z]]).
Proof. split; reflexivity. Qed.

(** ** Dictionaries and frames *)













(** ** The store *)

Section Page.

Context `{V : Vision}.


(** *** The blocks that use the store show nothing of the recognition
    path and never raise. *)

Lemma init_mongo_quiet (s : session) (w : world) :
  exists evs c',
    init_mongo s w = (Ok tt, mkWorld (ui w ++ evs) c')
    /\ filter is_ocr_event evs = [].
Proof.
  unfold init_mongo, try_except, seq, call, set_collection, show.
  destruct (connect s) as [c|e]; cbn; eauto.
Qed.

Lemma save_block_quiet (s : session) (df : DataFrame) (w : world) :
  exists evs c',
    save_block s df w = (Ok tt, mkWorld (ui w ++ evs) c')
    /\ filter is_ocr_event evs = [].
Proof.
  unfold save_block, try_except, seq, call, get_collection, set_collection,
    show, ret.
  destruct (save_clicked s).
  - destruct w as [u [c|]]; cbn.
    + destruct (insert_many c (to_dict_records df)) as [c'|e]; cbn; eauto.
    + eauto.
  - exists [], (collection w). rewrite app_nil_r. destruct w; eauto.
Qed.

Lemma stored_block_quiet (s : session) (w : world) :
  exists evs c',
    stored_block s w = (Ok tt, mkWorld (ui w ++ evs) c')
    /\ filter is_ocr_event evs = [].
Proof.
  unfold stored_block, try_except, seq, call, get_collection, show, ret.
  destruct (show_stored s).
  - destruct w as [u [c|]]; cbn.
    + destruct (find c) as [[|d ds]|e]; cbn; eauto.
    + eauto.
  - exists [], (collection w). rewrite app_nil_r. destruct w; eauto.
Qed.

(** [main] shows of the recognition path what [ocr_path] says, and ends
    as it says, in every state of the store. *)
Lemma main_ocr_path (s : session) (w : world) :
  exists evs c',
    main s w = (snd (ocr_path s), mkWorld (ui w ++ evs) c')
    /\ filter is_ocr_event evs = fst (ocr_path s).
Proof.
  unfold main, ocr_path, seq, show, call. cbn [ui collection].
  destruct (uploaded_file s) as [[image|e]|]; cbn.
  - destruct (ocr_core (OfPIL image)) as [text|e]; cbn.
    + destruct (parse_receipt text) as [df|e]; cbn.
      * destruct (df_empty df); cbn.
        -- match goal with
           | |- context [stored_block s ?w0] =>
               destruct (stored_block_quiet s w0) as (evs & c1 & E & Hq)
           end.
           rewrite E. cbn. rewrite <- !app_assoc. eexists _, _.
           split; [reflexivity|]. cbn. rewrite filter_app, Hq. reflexivity.
        -- match goal with
           | |- context [save_block s ?d ?w0] =>
               destruct (save_block_quiet s d w0) as (evs1 & c1 & E1 & Hq1)
           end.
           rewrite E1.
           match goal with
           | |- context [stored_block s ?w0] =>
               destruct (stored_block_quiet s w0) as (evs2 & c2 & E2 & Hq2)
           end.
           rewrite E2. cbn. rewrite <- !app_assoc. eexists _, _.
           split; [reflexivity|]. cbn.
           rewrite !filter_app, Hq1, Hq2. reflexivity.
      * rewrite <- !app_assoc. eexists _, _. split; reflexivity.
    + rewrite <- !app_assoc. eexists _, _. split; reflexivity.
  - rewrite <- !app_assoc. eexists _, _. split; reflexivity.
  - rewrite <- !app_assoc. eexists _, _. split; reflexivity.
Qed.

Lemma run_ocr_path (s : session) :
  fst (run s) = snd (ocr_path s)
  /\ ocr_view (snd (run s)) = fst (ocr_path s)
  /\ (forall ev, In ev (ui (after_init s)) -> In ev (ui (snd (run s)))).
Proof.
  unfold run, script, seq, after_init.
  destruct (init_mongo_quiet s (mkWorld [] None)) as (evs0 & c0 & E0 & Hq0).
  rewrite E0.
  destruct (main_ocr_path s (mkWorld (ui (mkWorld [] None) ++ evs0) c0))
    as (evs & c1 & E & Hq).
  rewrite E. cbn. unfold ocr_view. cbn.
  repeat split.
  - now rewrite filter_app, Hq0, Hq.
  - intros ev Hev. apply in_or_app. now left.
Qed.

End Page.

(** ** The page *)

Section Outcomes.

Context `{V : Vision}.

Lemma in_ocr_view (ev : ui_event) (w : world) :
  is_ocr_event ev = true -> (In ev (ui w) <-> In ev (ocr_view w)).
Proof. intros H. unfold ocr_view. rewrite filter_In. tauto. Qed.

Lemma no_colon_frame (text : str) :
  (forall line, In line (lines_of text) -> ~ In colon line) ->
  parse_receipt text = Ok (mkDataFrame [Field; Value] []).
Proof.
  intros H. rewrite parse_receipt_frame.
  assert (E : filter has_colon (lines_of text) = []).
  { induction (lines_of text) as [|l ls IH]; simpl; [reflexivity|].
    assert (Hl : has_colon l = false).
    { apply str_contains_false_iff. apply H. now left. }
    rewrite Hl. apply IH. intros line Hin. apply H. now right. }
  now rewrite E.
Qed.

(** C4: when recognition gives a text none of whose lines holds a [':']
    (the empty text is one), [parse_receipt] returns the frame with no
    record and does not raise, the run ends normally, and the page shows
    the warning that no pair was found and no table.  When recognition
    raises instead, the run ends with that exception and shows no such
    warning: the two outcomes are told apart. *)
Theorem empty_extraction_warns (s : session) (image : Image) (text : str) :
  uploaded_file s = Some (Ok image) ->
  ocr_core (OfPIL image) = Ok text ->
  (forall line, In line (lines_of text) -> ~ In colon line) ->
  parse_receipt text = Ok (mkDataFrame [Field; Value] [])
  /\ records (parse_receipt text) = []
  /\ fst (run s) = Ok tt
  /\ In (Warning msg_no_pairs) (ui (snd (run s)))
  /\ (forall df, ~ In (Grid df) (ui (snd (run s))))
  /\ (forall (s' : session) (image' : Image) (e : exn),
         uploaded_file s' = Some (Ok image') ->
         ocr_core (OfPIL image') = Raise e ->
         fst (run s') = Raise e
         /\ forall msg, ~ In (Warning msg) (ui (snd (run s')))).
Proof.
  intros Hup Hocr Hlines.
  pose proof (no_colon_frame text Hlines) as Hparse.
  assert (Hpath : ocr_path s =
                  ([ShowImage image; Subheader msg_extracted; TextArea text;
                    Warning msg_no_pairs], Ok tt)).
  { unfold ocr_path. now rewrite Hup, Hocr, Hparse. }
  destruct (run_ocr_path s) as (Hout & Hview & _).
  rewrite Hpath in Hout, Hview. cbn [fst snd] in Hout, Hview.
  split; [exact Hparse|]. split; [now rewrite Hparse|].
  split; [exact Hout|]. split; [|split].
  - apply in_ocr_view; [reflexivity|]. rewrite Hview. simpl. tauto.
  - intros df Hin. apply in_ocr_view in Hin; [|reflexivity].
    rewrite Hview in Hin. simpl in Hin.
    repeat (destruct Hin as [Hin|Hin]; [discriminate|]). exact Hin.
  - intros s' image' e Hup' Hocr'.
    assert (Hpath' : ocr_path s' = ([ShowImage image'], Raise e)).
    { unfold ocr_path. now rewrite Hup', Hocr'. }
    destruct (run_ocr_path s') as (Hout' & Hview' & _).
    rewrite Hpath' in Hout', Hview'. cbn [fst snd] in Hout', Hview'.
    split; [exact Hout'|].
    intros msg Hin. apply in_ocr_view in Hin; [|reflexivity].
    rewrite Hview' in Hin. simpl in Hin.
    destruct Hin as [Hin|[]]. discriminate.
Qed.

Lemma ocr_path_with_connect (s : session) (r : result Collection) :
  ocr_path (with_connect s r) = ocr_path s.
Proof. reflexivity. Qed.

(** C8: a run whose connection to the store failed shows of the
    recognition path (image, recognised text, table or warning) exactly
    what the run with a working store shows, and ends the same way; the
    failure itself is shown as a message in the side bar and raises
    nothing.  When recognition succeeds the run with the failed store ends
    normally and shows the recognised text. *)
Theorem store_failure_leaves_ocr (s : session) (c : Collection) (e : exn) :
  ocr_view (snd (run (with_connect s (Raise e)))) =
  ocr_view (snd (run (with_connect s (Ok c))))
  /\ fst (run (with_connect s (Raise e))) = fst (run (with_connect s (Ok c)))
  /\ In (SidebarError msg_connect_error e)
        (ui (snd (run (with_connect s (Raise e)))))
  /\ init_mongo (with_connect s (Raise e)) (mkWorld [] None) =
     (Ok tt, mkWorld [SidebarError msg_connect_error e] None)
  /\ (forall image text,
         uploaded_file s = Some (Ok image) ->
         ocr_core (OfPIL image) = Ok text ->
         fst (run (with_connect s (Raise e))) = Ok tt
         /\ In (TextArea text) (ui (snd (run (with_connect s (Raise e)))))
         /\ exists df, parse_receipt text = Ok df
                       /\ (df_empty df = false ->
                           In (Grid df)
                              (ui (snd (run (with_connect s (Raise e))))))).
Proof.
  destruct (run_ocr_path (with_connect s (Raise e))) as (Ho1 & Hv1 & Hk1).
  destruct (run_ocr_path (with_connect s (Ok c))) as (Ho2 & Hv2 & _).
  rewrite ocr_path_with_connect in Ho1, Hv1, Ho2, Hv2.
  split; [congruence|]. split; [congruence|].
  split; [|split; [reflexivity|]].
  - apply Hk1. cbn. now left.
  - intros image text Hup Hocr.
    destruct (parse_receipt_total text) as [df Hparse].
    assert (Hpath : ocr_path s =
              (if negb (df_empty df)
               then ([ShowImage image; Subheader msg_extracted; TextArea text]
                       ++ [Subheader msg_editable; Grid df], Ok tt)
               else ([ShowImage image; Subheader msg_extracted; TextArea text]
                       ++ [Warning msg_no_pairs], Ok tt))).
    { unfold ocr_path. now rewrite Hup, Hocr, Hparse. }
    rewrite Hpath in Ho1, Hv1.
    split; [|split].
    + rewrite Ho1. now destruct (df_empty df).
    + apply in_ocr_view; [reflexivity|]. rewrite Hv1.
      destruct (df_empty df); simpl; tauto.
    + exists df. split; [exact Hparse|]. intros Hne.
      apply in_ocr_view; [reflexivity|]. rewrite Hv1, Hne. simpl. tauto.
Qed.

End Outcomes.

(** ** The theorems at concrete inputs *)

Lemma empty_extraction_warns_witness :
  fst (@run (sample_vision plain_text) sample_session) = Ok tt
  /\ In (Warning msg_no_pairs)
        (ui (snd (@run (sample_vision plain_text) sample_session))).
Proof.
  assert (Hlines : forall line, In line (lines_of plain_text) -> ~ In colon line).
  { intros line [<-|[]]. apply str_contains_false_iff. reflexivity. }
  destruct (@empty_extraction_warns (sample_vision plain_text) sample_session
              sample_image plain_text eq_refl eq_refl Hlines)
    as (_ & _ & Hend & Hwarn & _).
  split; [exact Hend | exact Hwarn].
Defined.


Lemma store_failure_leaves_ocr_witness :
  fst (@run (sample_vision sample_receipt)
         (with_connect sample_session (Raise (OtherError "InvalidURI")))) = Ok tt
  /\ In (TextArea sample_receipt)
        (ui (snd (@run (sample_vision sample_receipt)
                    (with_connect sample_session
                       (Raise (OtherError "InvalidURI")))))).
Proof.
  destruct (@store_failure_leaves_ocr (sample_vision sample_receipt)
              sample_session sample_collection (OtherError "InvalidURI"))
    as (_ & _ & _ & _ & Husable).
  destruct (Husable sample_image sample_receipt eq_refl eq_refl)
    as (Hend & Htext & _).
  split; [exact Hend | exact Htext].
Defined.

Example failed_store_run :
  snd (@run (sample_vision plain_text)
         (with_connect sample_session (Raise (OtherError "InvalidURI")))) =
  mkWorld
    [SidebarError msg_connect_error (OtherError "InvalidURI");
     PageConfig;
     Title msg_title;
     Markdown msg_intro;
     SidebarHeader msg_upload_header;
     ShowImage sample_image;
     Subheader msg_extracted;
     TextArea plain_text;
     Warning msg_no_pairs;
     Error msg_fetch_error (NameError "collection");
     Markdown msg_rule;
     Markdown msg_footer]
    None.
Proof. vm_compute. reflexivity. Qed.

(** * Further properties of the code *)

(** ** [parse_receipt]: what the cells hold *)

Lemma in_strip (c : char) (s : str) : In c (strip s) -> In c s.
Proof.
  destruct (strip_spec s) as (a & b & E & _). intros H.
  rewrite E. apply in_or_app. right. apply in_or_app. now left.
Qed.

Lemma in_spec_before_first (sep c : char) (s : str) :
  In c (spec_before_first sep s) -> In c s.
Proof.
  induction s as [|x s IH]; simpl; [tauto|].
  destruct (N.eqb x sep); simpl; [tauto|]. intros [H|H]; [now left|].
  right. now apply IH.
Qed.

Lemma in_spec_after_first (sep c : char) (s : str) :
  In c (spec_after_first sep s) -> In c s.
Proof.
  induction s as [|x s IH]; simpl; [tauto|].
  destruct (N.eqb x sep); intros H; right; [assumption | now apply IH].
Qed.

Lemma lines_of_no_nl (text line : str) :
  In line (lines_of text) -> ~ In nl line.
Proof.
  unfold lines_of, str_split. apply split_from_pieces. simpl. tauto.
Qed.

Lemma strip_trimmed (s : str) : trimmed (strip s).
Proof. destruct (strip_spec s) as (_ & _ & _ & _ & _ & H1 & H2). now split. Qed.

(** X1: every row of the frame [parse_receipt] returns is a pair of
    strings, neither NaN nor another value; each is trimmed and holds no
    line break, and the field holds no [':']. *)
Theorem parse_receipt_clean_cells (text : str) :
  exists df,
    parse_receipt text = Ok df
    /\ Forall (fun r => exists f v,
                   r = [PStr f; PStr v]
                   /\ clean_cell (PStr f) /\ clean_cell (PStr v)
                   /\ ~ In colon f)
              (rows df).
Proof.
  eexists. split; [apply parse_receipt_frame|].
  cbn [rows]. apply Forall_forall. intros r Hr.
  apply in_map_iff in Hr. destruct Hr as (line & <- & Hin).
  apply filter_In in Hin. destruct Hin as [Hin _].
  pose proof (lines_of_no_nl _ _ Hin) as Hnl.
  exists (strip (spec_before_first colon line)),
         (strip (spec_after_first colon line)).
  split; [reflexivity|]. repeat split.
  - eexists. split; [reflexivity|]. split; [apply strip_trimmed|].
    intros H. apply Hnl. eapply in_spec_before_first, in_strip, H.
  - eexists. split; [reflexivity|]. split; [apply strip_trimmed|].
    intros H. apply Hnl. eapply in_spec_after_first, in_strip, H.
  - intros H. apply in_strip in H.
    now apply spec_before_first_no_sep in H.
Qed.

(** ** [parse_receipt]: white space around a line *)

Lemma lstrip_pad (a s : str) :
  forallb isspace a = true -> lstrip (a ++ s) = lstrip s.
Proof.
  induction a as [|c a IH]; simpl; [reflexivity|].
  intros H. apply andb_true_iff in H. destruct H as [Hc Ha].
  rewrite Hc. now apply IH.
Qed.

Lemma lstrip_all_space (b : str) : forallb isspace b = true -> lstrip b = [].
Proof. intros H. rewrite <- (app_nil_r b). now rewrite lstrip_pad. Qed.

Lemma lstrip_app (s b : str) :
  lstrip s <> [] -> lstrip (s ++ b) = lstrip s ++ b.
Proof.
  induction s as [|c s IH]; simpl; [congruence|].
  destruct (isspace c); [exact IH | reflexivity].
Qed.

Lemma lstrip_app_blank (s b : str) :
  lstrip s = [] -> lstrip (s ++ b) = lstrip b.
Proof.
  induction s as [|c s IH]; simpl; [reflexivity|].
  destruct (isspace c); [exact IH | discriminate].
Qed.

Lemma strip_pad_l (a s : str) :
  forallb isspace a = true -> strip (a ++ s) = strip s.
Proof. intros H. unfold strip. now rewrite lstrip_pad. Qed.

Lemma strip_pad_r (s b : str) :
  forallb isspace b = true -> strip (s ++ b) = strip s.
Proof.
  intros Hb. unfold strip.
  destruct (lstrip s) as [|c t] eqn:E.
  - rewrite lstrip_app_blank by assumption.
    now rewrite lstrip_all_space.
  - rewrite lstrip_app by congruence. rewrite E.
    unfold rstrip. rewrite rev_app_distr, lstrip_pad; [reflexivity|].
    now rewrite forallb_rev.
Qed.

Lemma space_no_colon (a : str) :
  forallb isspace a = true -> ~ In colon a.
Proof.
  intros H Hin. rewrite forallb_forall in H. apply H in Hin. discriminate.
Qed.

Lemma spec_before_first_pad_l (sep : char) (a s : str) :
  ~ In sep a -> spec_before_first sep (a ++ s) = a ++ spec_before_first sep s.
Proof.
  induction a as [|x a IH]; simpl; intros H; [reflexivity|].
  destruct (N.eqb_spec x sep) as [->|_]; [tauto|]. f_equal. apply IH. tauto.
Qed.

Lemma spec_after_first_pad_l (sep : char) (a s : str) :
  ~ In sep a -> spec_after_first sep (a ++ s) = spec_after_first sep s.
Proof.
  induction a as [|x a IH]; simpl; intros H; [reflexivity|].
  destruct (N.eqb_spec x sep) as [->|_]; [tauto|]. apply IH. tauto.
Qed.

Lemma spec_before_first_pad_r (sep : char) (s b : str) :
  In sep s -> spec_before_first sep (s ++ b) = spec_before_first sep s.
Proof.
  induction s as [|x s IH]; simpl; intros H; [tauto|].
  destruct (N.eqb_spec x sep) as [->|Hne]; [reflexivity|].
  f_equal. apply IH. destruct H; [congruence | assumption].
Qed.

Lemma spec_after_first_pad_r (sep : char) (s b : str) :
  In sep s -> spec_after_first sep (s ++ b) = spec_after_first sep s ++ b.
Proof.
  induction s as [|x s IH]; simpl; intros H; [tauto|].
  destruct (N.eqb_spec x sep) as [->|Hne]; [reflexivity|].
  apply IH. destruct H; [congruence | assumption].
Qed.

(** X2: the body of the loop of [parse_receipt] does the same on a line
    and on the line with white space before and after it (an indentation,
    trailing blanks, the carriage return of a CRLF line end). *)
Theorem parse_line_padding (data : list pydict) (a line b : str) :
  forallb isspace a = true ->
  forallb isspace b = true ->
  parse_line data (a ++ line ++ b) = parse_line data line.
Proof.
  intros Ha Hb.
  pose proof (space_no_colon a Ha) as Hca.
  pose proof (space_no_colon b Hb) as Hcb.
  destruct (has_colon line) eqn:Hl.
  - assert (Hin : In colon line) by now apply str_contains_true_iff.
    assert (Hl' : has_colon (a ++ line ++ b) = true).
    { unfold has_colon. rewrite !str_contains_app.
      unfold has_colon in Hl. rewrite Hl. now rewrite orb_true_r. }
    rewrite !parse_line_colon by assumption. do 3 f_equal.
    unfold spec_record.
    rewrite spec_before_first_pad_l, spec_after_first_pad_l by assumption.
    rewrite spec_before_first_pad_r, spec_after_first_pad_r by assumption.
    now rewrite strip_pad_l, strip_pad_r.
  - assert (Hl' : has_colon (a ++ line ++ b) = false).
    { unfold has_colon. rewrite !str_contains_app.
      unfold has_colon in Hl. rewrite Hl.
      apply str_contains_false_iff in Hca, Hcb. now rewrite Hca, Hcb. }
    now rewrite !parse_line_plain.
Qed.

Lemma parse_line_padding_witness :
  parse_line [] (lit "  " ++ lit "Total: 5.00" ++ [13%N]) =
  parse_line [] (lit "Total: 5.00").
Proof.
  apply (parse_line_padding [] (lit "  ") (lit "Total: 5.00") [13%N]);
    reflexivity.
Defined.

(** X3: a line without [':'] can be taken out of a text without changing
    what [parse_receipt] returns. *)
Theorem parse_receipt_skips_plain_line (a line b : str) :
  ~ In colon line ->
  ~ In nl line ->
  parse_receipt (a ++ nl :: line ++ nl :: b) = parse_receipt (a ++ nl :: b).
Proof.
  intros Hc Hn. rewrite !parse_receipt_frame. do 3 f_equal.
  rewrite (lines_of_app_nl a (line ++ nl :: b)), (lines_of_app_nl line b),
          (lines_of_app_nl a b).
  assert (E : lines_of line = [line]).
  { unfold lines_of, str_split. rewrite split_from_no_sep; [reflexivity|].
    now apply str_contains_false_iff. }
  rewrite E, !filter_app. simpl.
  assert (Hl : has_colon line = false) by now apply str_contains_false_iff.
  now rewrite Hl.
Qed.

Lemma parse_receipt_skips_plain_line_witness :
  parse_receipt (lit "Total: 5.00" ++ nl :: lit "thank you" ++ nl :: lit "Time: 10:30")
  = parse_receipt (lit "Total: 5.00" ++ nl :: lit "Time: 10:30").
Proof.
  apply (parse_receipt_skips_plain_line (lit "Total: 5.00") (lit "thank you")
           (lit "Time: 10:30")).
  - apply str_contains_false_iff. reflexivity.
  - apply str_contains_false_iff. reflexivity.
Defined.

(** ** The preprocessing of [ocr_core] *)

Section Preprocessing.

Context `{V : Vision}.

Lemma binarize_is_binary (t : Z) (px : list (list Z)) :
  is_binary (binarize t px).
Proof.
  unfold is_binary, binarize. apply Forall_forall. intros row Hrow.
  apply in_map_iff in Hrow. destruct Hrow as (r & <- & _).
  apply Forall_forall. intros v Hv. apply in_map_iff in Hv.
  destruct Hv as (x & <- & _). destruct (t <? x)%Z; tauto.
Qed.

Lemma dims_binarize (t : Z) (px : list (list Z)) :
  List.map (@List.length Z) (binarize t px) = List.map (@List.length Z) px.
Proof.
  unfold binarize. rewrite map_map. apply map_ext. intros row.
  apply length_map.
Qed.

Lemma dims_cvtColor (a g : ndarray) :
  cvtColor_BGR2GRAY a = Ok g -> dims g = dims a.
Proof.
  unfold cvtColor_BGR2GRAY. destruct a as [px|px].
  - destruct (is_empty_grid px); discriminate.
  - destruct (is_empty_grid px); [discriminate|].
    destruct (Nat.eqb (channels px) 3 || Nat.eqb (channels px) 4)%bool;
      [|discriminate].
    intros [= <-]. cbn [dims]. rewrite map_map. apply map_ext. intros row.
    apply length_map.
Qed.

(** X4: whenever the preprocessing of [ocr_core] returns, what it hands
    to the recognition engine has one channel, the height and the row
    widths of the input, and no pixel other than 0 and 255. *)
Theorem normalize_binary_same_size (image : image_like) (n : ndarray) :
  normalize image = Ok n ->
  exists out,
    n = Arr2 out /\ is_binary out /\ dims n = dims (np_array image).
Proof.
  unfold normalize.
  destruct (cvtColor_BGR2GRAY (np_array image)) as [g|e] eqn:E; cbn;
    [|discriminate].
  pose proof (dims_cvtColor _ E) as Hd.
  destruct g as [px|px]; cbn; [|discriminate].
  intros [= <-]. eexists. split; [reflexivity|]. split.
  - apply binarize_is_binary.
  - rewrite <- Hd. cbn [dims]. apply dims_binarize.
Qed.

Lemma is_empty_grid_map (A B : Type) (f : A -> B) (px : list (list A)) :
  is_empty_grid (List.map (List.map f) px) = is_empty_grid px.
Proof. destruct px as [|[|p row] rest]; reflexivity. Qed.

(** X5: the fourth band of an RGBA image is not looked at: the image
    and the image without it are preprocessed to the same result. *)
Theorem normalize_ignores_alpha (px : list (list (Z * Z * Z * Z))) :
  normalize (OfPIL (ImageRGBA px)) = normalize (OfPIL (ImageRGB (drop_alpha px)))
  /\ ocr_core (OfPIL (ImageRGBA px)) = ocr_core (OfPIL (ImageRGB (drop_alpha px))).
Proof.
  assert (E : normalize (OfPIL (ImageRGBA px)) =
              normalize (OfPIL (ImageRGB (drop_alpha px)))).
  { unfold normalize. cbn [np_array]. unfold cvtColor_BGR2GRAY, drop_alpha.
    rewrite !is_empty_grid_map.
    destruct (is_empty_grid px) eqn:Hne; [reflexivity|].
    assert (H4 : channels (List.map (List.map
                   (fun '(r, g, b, a) => [r; g; b; a])) px) = 4%nat).
    { destruct px as [|[|[[[r g] b] a] row] rest]; try discriminate.
      reflexivity. }
    assert (H3 : channels (List.map (List.map (fun '(r, g, b) => [r; g; b]))
                   (List.map (List.map (fun '(r, g, b, _) => (r, g, b))) px))
                 = 3%nat).
    { destruct px as [|[|[[[r g] b] a] row] rest]; try discriminate.
      reflexivity. }
    rewrite H4, H3. cbn [Nat.eqb orb].
    match goal with
    | |- bind (Ok (Arr2 ?x)) _ = bind (Ok (Arr2 ?y)) _ =>
        assert (Exy : x = y); [|now rewrite Exy]
    end.
    rewrite !map_map. apply map_ext. intros row. rewrite !map_map.
    apply map_ext. now intros [[[r g] b] a]. }
  split; [exact E|]. unfold ocr_core. now rewrite E.
Qed.

End Preprocessing.

Lemma normalize_binary_same_size_witness :
  exists out,
    Arr2 [[255; 0]%Z] = Arr2 out /\ is_binary out
    /\ dims (Arr2 [[255; 0]%Z]) = dims (np_array (OfPIL sample_image)).
Proof.
  apply (@normalize_binary_same_size (sample_vision []) (OfPIL sample_image)).
  reflexivity.
Defined.

Example normalize_rgba_sample :
  @normalize (sample_vision []) (OfPIL (ImageRGBA sample_rgba)) =
  Ok (Arr2 [[255; 0]%Z]).
Proof. reflexivity. Qed.

(** ** The store: insertion and read back *)

Lemma assign_ids_fresh (n : N) (records : list pydict) :
  Forall (fun d => has_key id_key d = false) records ->
  strip_ids (fst (assign_ids n records)) = records
  /\ snd (assign_ids n records) = (n + N.of_nat (List.length records))%N.
Proof.
  intros H. revert n. induction H as [|d ds Hd _ IH]; intros n; simpl.
  - split; [reflexivity | lia].
  - rewrite Hd. destruct (IH (N.succ n)) as [E1 E2].
    destruct (assign_ids (N.succ n) ds) as [out m]. simpl in *.
    split; [now rewrite E1 | lia].
Qed.

Lemma insert_many_ok (c : Collection) (records : list pydict) :
  reachable c = true -> records <> [] ->
  insert_many c records = Ok (after_insert c records).
Proof.
  intros Hr Hne. unfold insert_many, after_insert, inserted. rewrite Hr.
  destruct records as [|d ds]; [congruence|]. cbn [negb].
  now destruct (assign_ids (next_oid c) (d :: ds)).
Qed.

Lemma strip_ids_app (a b : list pydict) :
  strip_ids (a ++ b) = strip_ids a ++ strip_ids b.
Proof. apply map_app. Qed.

Lemma extracted_no_id (text : str) :
  Forall (fun d => has_key id_key d = false) (extracted text).
Proof.
  apply Forall_forall. intros d Hd. apply in_map_iff in Hd.
  now destruct Hd as (line & <- & _).
Qed.

Lemma to_dict_records_parsed (text : str) :
  to_dict_records (parsed text) = extracted text.
Proof.
  unfold to_dict_records, parsed, extracted. cbn [rows columns].
  now rewrite map_map.
Qed.

Section PageRuns.

Context `{V : Vision}.

Lemma init_mongo_ok (s : session) (w : world) :
  init_mongo s w = (Ok tt, snd (init_mongo s w)).
Proof.
  unfold init_mongo, try_except, seq, call, set_collection, show.
  now destruct (connect s).
Qed.

(** The stored-data block: it ends normally, leaves the collection as it
    is, and shows at most one element, which is no success message and
    nothing of the recognition path. *)
Lemma stored_block_effect (s : session) (w : world) :
  exists evs,
    stored_block s w = (Ok tt, mkWorld (ui w ++ evs) (collection w))
    /\ (List.length evs <= 1)%nat
    /\ filter is_ocr_event evs = []
    /\ (forall msg, ~ In (Success msg) evs)
    /\ (collection w = None ->
        evs = if show_stored s
              then [Error msg_fetch_error (NameError "collection")] else []).
Proof.
  unfold stored_block, try_except, seq, call, get_collection, show, ret.
  destruct w as [u coll]. cbn [ui collection].
  destruct (show_stored s).
  - destruct coll as [c|]; cbn.
    + destruct (find c) as [[|d ds]|e]; cbn; eexists;
        (split; [reflexivity|]); cbn;
        repeat split; try lia; try discriminate;
        try (intros msg H; cbn in H; intuition discriminate).
    + eexists. split; [reflexivity|]. cbn.
      repeat split; try lia;
        try (intros msg H; cbn in H; intuition discriminate).
  - exists []. rewrite app_nil_r. cbn.
    repeat split; try lia; try (intros msg H; exact H).
Qed.

(** X6: the stored-data block (lines 151 to 163) never raises and never
    changes the collection, whatever the state of the store; it shows at
    most one element, and with the name [collection] unbound that element
    is the error message carrying the [NameError]. *)
Theorem stored_block_read_only (s : session) (w : world) :
  exists evs,
    stored_block s w = (Ok tt, mkWorld (ui w ++ evs) (collection w))
    /\ (List.length evs <= 1)%nat
    /\ match collection w with
       | Some _ => True
       | None => evs = if show_stored s
                       then [Error msg_fetch_error (NameError "collection")]
                       else []
       end.
Proof.
  destruct (stored_block_effect s w) as (evs & E & Hlen & _ & _ & Hnone).
  exists evs. split; [exact E|]. split; [exact Hlen|].
  destruct (collection w); [exact I | now apply Hnone].
Qed.

(** X7: the save block (lines 139 to 146) never raises.  Either the
    button was clicked and the insertion succeeded: the success message is
    shown and the collection is the one [insert_many] returned; or the
    collection is left as it was and no success message is shown. *)
Theorem save_block_outcome (s : session) (df : DataFrame) (w : world) :
  (exists c c',
      save_clicked s = true /\ collection w = Some c
      /\ insert_many c (to_dict_records df) = Ok c'
      /\ save_block s df w =
         (Ok tt, mkWorld (ui w ++ [Success msg_saved]) (Some c')))
  \/ (exists evs,
         save_block s df w = (Ok tt, mkWorld (ui w ++ evs) (collection w))
         /\ (forall msg, ~ In (Success msg) evs)).
Proof.
  unfold save_block, try_except, seq, call, get_collection, set_collection,
    show, ret.
  destruct w as [u coll]. cbn [ui collection].
  destruct (save_clicked s).
  - destruct coll as [c|]; cbn.
    + destruct (insert_many c (to_dict_records df)) as [c'|e] eqn:E; cbn.
      * left. exists c, c'. repeat split; assumption.
      * right. eexists. split; [reflexivity|].
        intros msg [H|[]]; discriminate.
    + right. eexists. split; [reflexivity|].
      intros msg [H|[]]; discriminate.
  - right. exists []. rewrite app_nil_r. split; [reflexivity|]. intros msg [].
Qed.

(** X8: without an upload the run ends normally after showing the page
    head, the invitation to upload and the page foot; the recognition, the
    save block and the stored-data block are not reached, also with the
    boxes ticked, and the collection is as the module-level code left
    it. *)
Theorem run_without_upload (s : session) :
  uploaded_file s = None ->
  run s = (Ok tt,
           mkWorld (ui (after_init s) ++ page_header ++ [Info msg_upload]
                      ++ page_footer)
                   (collection (after_init s))).
Proof.
  intros Hup. unfold run, script, seq, after_init.
  rewrite init_mongo_ok.
  destruct (snd (init_mongo s (mkWorld [] None))) as [u0 c0].
  unfold main, seq, show. rewrite Hup. cbn.
  now rewrite <- !app_assoc.
Qed.

(** X9: when the upload cannot be opened as an image the exception of
    [Image.open] is not caught: the run ends with it after the page head,
    shows neither image nor page foot, and leaves the collection as it
    was. *)
Theorem run_undecodable_upload (s : session) (e : exn) :
  uploaded_file s = Some (Raise e) ->
  run s = (Raise e,
           mkWorld (ui (after_init s) ++ page_header)
                   (collection (after_init s))).
Proof.
  intros Hup. unfold run, script, seq, after_init.
  rewrite init_mongo_ok.
  destruct (snd (init_mongo s (mkWorld [] None))) as [u0 c0].
  unfold main, seq, show, call. rewrite Hup. cbn.
  now rewrite <- !app_assoc.
Qed.

(** X10: a run ends with an exception only when [Image.open] raised it
    or [ocr_core] raised it on the opened image; nothing the store does,
    and nothing [parse_receipt] does, ends a run. *)
Theorem run_raises_only_from_image (s : session) (e : exn) :
  fst (run s) = Raise e ->
  uploaded_file s = Some (Raise e)
  \/ exists image,
       uploaded_file s = Some (Ok image)
       /\ ocr_core (OfPIL image) = Raise e.
Proof.
  destruct (run_ocr_path s) as (Hout & _ & _). rewrite Hout.
  unfold ocr_path.
  destruct (uploaded_file s) as [[image|e0]|]; cbn.
  - destruct (ocr_core (OfPIL image)) as [text|e1] eqn:Hocr; cbn.
    + rewrite parse_receipt_frame.
      destruct (negb (df_empty _)); cbn; discriminate.
    + intros [= <-]. right. exists image. now split.
  - intros [= <-]. now left.
  - discriminate.
Qed.

(** X11: when recognition gives a text with a [':'] in some line, the
    run ends normally and shows the editable table holding the frame of
    [parse_receipt], which has a row, and no warning. *)
Theorem run_shows_table (s : session) (image : Image) (text line : str) :
  uploaded_file s = Some (Ok image) ->
  ocr_core (OfPIL image) = Ok text ->
  In line (lines_of text) ->
  In colon line ->
  parse_receipt text = Ok (parsed text)
  /\ rows (parsed text) <> []
  /\ fst (run s) = Ok tt
  /\ In (Grid (parsed text)) (ui (snd (run s)))
  /\ (forall msg, ~ In (Warning msg) (ui (snd (run s)))).
Proof.
  intros Hup Hocr Hline Hcolon.
  assert (Hrows : rows (parsed text) <> []).
  { cbn [parsed rows]. intros E. apply map_eq_nil in E.
    assert (Hin : In line (filter has_colon (lines_of text))).
    { apply filter_In. split; [assumption|].
      now apply str_contains_true_iff. }
    rewrite E in Hin. exact Hin. }
  assert (Hne : df_empty (parsed text) = false).
  { unfold df_empty. cbn [parsed columns rows] in *.
    destruct (List.map spec_row (filter has_colon (lines_of text)));
      [congruence | reflexivity]. }
  assert (Hpath : ocr_path s = (table_events image text (parsed text), Ok tt)).
  { unfold ocr_path. rewrite Hup, Hocr, parse_receipt_frame.
    fold (parsed text). now rewrite Hne. }
  destruct (run_ocr_path s) as (Hout & Hview & _).
  rewrite Hpath in Hout, Hview. cbn [fst snd] in Hout, Hview.
  split; [apply parse_receipt_frame|]. split; [exact Hrows|].
  split; [exact Hout|]. split.
  - apply in_ocr_view; [reflexivity|]. rewrite Hview. simpl. tauto.
  - intros msg Hin. apply in_ocr_view in Hin; [|reflexivity].
    rewrite Hview in Hin. simpl in Hin.
    repeat (destruct Hin as [Hin|Hin]; [discriminate|]). exact Hin.
Qed.

End PageRuns.

(** ** Whole runs that save *)

Section SavingRuns.

Context `{V : Vision}.

(** A run through the save block and the stored-data block, with what
    the calls return given. *)
Lemma script_saving (s : session) (image : Image) (text : str)
      (df : DataFrame) (c c' : Collection) :
  connect s = Ok c ->
  uploaded_file s = Some (Ok image) ->
  ocr_core (OfPIL image) = Ok text ->
  parse_receipt text = Ok df ->
  df_empty df = false ->
  save_clicked s = true ->
  show_stored s = true ->
  insert_many c (to_dict_records (edit s df)) = Ok c' ->
  reachable c' = true ->
  docs c' <> [] ->
  run s =
  (Ok tt,
   mkWorld ([SidebarSuccess msg_connected] ++ page_header
              ++ table_events image text df
              ++ [Success msg_saved;
                  ShowDataFrame (DataFrame_of_records (strip_ids (docs c')))]
              ++ page_footer)
           (Some c')).
Proof.
  intros Hconn Hup Hocr Hparse Hne Hsave Hshow Hins Hreach Hdocs.
  unfold run, script, init_mongo, main, save_block, stored_block,
    try_except, seq, call, get_collection, set_collection, show, find.
  rewrite Hconn, Hup. cbn. rewrite Hocr. cbn. rewrite Hparse. cbn.
  rewrite Hne. cbn. rewrite Hsave. cbn. rewrite Hins. cbn.
  rewrite Hshow. cbn. rewrite Hreach. cbn.
  destruct (docs c') as [|d ds] eqn:E; [congruence|]. reflexivity.
Qed.

Lemma parsed_not_empty (text line : str) :
  In line (lines_of text) -> In colon line ->
  df_empty (parsed text) = false /\ extracted text <> [].
Proof.
  intros Hline Hcolon.
  assert (Hin : In line (filter has_colon (lines_of text))).
  { apply filter_In. split; [assumption|]. now apply str_contains_true_iff. }
  unfold df_empty, parsed, extracted. cbn [columns rows].
  destruct (filter has_colon (lines_of text)); [destruct Hin|].
  split; [reflexivity | discriminate].
Qed.

Lemma after_insert_extracted (c : Collection) (text line : str) :
  In line (lines_of text) -> In colon line ->
  reachable (after_insert c (extracted text)) = true
  /\ docs (after_insert c (extracted text)) <> []
  /\ strip_ids (docs (after_insert c (extracted text))) =
     strip_ids (docs c) ++ extracted text.
Proof.
  intros Hline Hcolon.
  destruct (parsed_not_empty _ _ Hline Hcolon) as [_ Hne].
  destruct (assign_ids_fresh (next_oid c) (extracted_no_id text)) as [Hs _].
  assert (E : strip_ids (docs (after_insert c (extracted text))) =
              strip_ids (docs c) ++ extracted text).
  { cbn [after_insert docs]. rewrite strip_ids_app. unfold inserted.
    now rewrite Hs. }
  split; [reflexivity|]. split; [|exact E].
  intros Hnil. rewrite Hnil in E. cbn in E.
  symmetry in E. apply app_eq_nil in E. tauto.
Qed.


(** X13: saving the same receipt in a second run stores it a second
    time: after the two runs the collection holds, after its old
    documents, the extracted records twice, it has grown by twice their
    number, and the store has handed out that many new identifiers.
    Nothing looks for a record that is already there. *)
Theorem second_save_duplicates
        (s : session) (image : Image) (text line : str) (c : Collection) :
  connect s = Ok c ->
  reachable c = true ->
  uploaded_file s = Some (Ok image) ->
  ocr_core (OfPIL image) = Ok text ->
  In line (lines_of text) ->
  In colon line ->
  edit s (parsed text) = parsed text ->
  save_clicked s = true ->
  show_stored s = true ->
  exists c1 c2,
    collection (snd (run s)) = Some c1
    /\ collection (snd (run (with_connect s (Ok c1)))) = Some c2
    /\ strip_ids (docs c2) =
       strip_ids (docs c) ++ extracted text ++ extracted text
    /\ List.length (docs c2) =
       (List.length (docs c) + 2 * List.length (extracted text))%nat
    /\ next_oid c2 =
       (next_oid c + 2 * N.of_nat (List.length (extracted text)))%N.
Proof.
  intros Hconn Hreach Hup Hocr Hline Hcolon Hedit Hsave Hshow.
  destruct (parsed_not_empty _ _ Hline Hcolon) as [Hne Hrecs].
  set (recs := extracted text) in *.
  set (c1 := after_insert c recs).
  set (c2 := after_insert c1 recs).
  destruct (after_insert_extracted c _ _ Hline Hcolon) as (Hr1 & Hd1 & Hs1).
  destruct (after_insert_extracted c1 _ _ Hline Hcolon) as (Hr2 & Hd2 & Hs2).
  fold recs in Hr1, Hd1, Hs1, Hr2, Hd2, Hs2. fold c1 in Hr1, Hd1, Hs1.
  fold c2 in Hr2, Hd2, Hs2.
  assert (Hrun1 : collection (snd (run s)) = Some c1).
  { rewrite (script_saving s (c := c) (c' := c1) (df := parsed text)
               (image := image) (text := text)); try assumption.
    - reflexivity.
    - apply parse_receipt_frame.
    - rewrite Hedit, to_dict_records_parsed. now apply insert_many_ok. }
  assert (Hrun2 : collection (snd (run (with_connect s (Ok c1)))) = Some c2).
  { rewrite (script_saving (with_connect s (Ok c1)) (c := c1) (c' := c2)
               (df := parsed text) (image := image) (text := text));
      try assumption; try reflexivity.
    - apply parse_receipt_frame.
    - cbn [with_connect edit]. rewrite Hedit, to_dict_records_parsed.
      now apply insert_many_ok. }
  exists c1, c2. split; [exact Hrun1|]. split; [exact Hrun2|].
  destruct (assign_ids_fresh (next_oid c) (extracted_no_id text)) as [Ha1 Hn1].
  destruct (assign_ids_fresh (next_oid c1) (extracted_no_id text)) as [Ha2 Hn2].
  fold recs in Ha1, Hn1, Ha2, Hn2.
  assert (Hl1 : List.length (inserted c recs) = List.length recs).
  { unfold inserted. rewrite <- Ha1 at 2. unfold strip_ids.
    now rewrite length_map. }
  assert (Hl2 : List.length (inserted c1 recs) = List.length recs).
  { unfold inserted. rewrite <- Ha2 at 2. unfold strip_ids.
    now rewrite length_map. }
  split; [|split].
  - rewrite Hs2, Hs1. now rewrite <- app_assoc.
  - unfold c2, c1. cbn [after_insert docs]. rewrite !length_app.
    fold c1. rewrite Hl1, Hl2. lia.
  - unfold c2. cbn [after_insert next_oid]. rewrite Hn2.
    unfold c1. cbn [after_insert next_oid]. rewrite Hn1. lia.
Qed.

(** X14: when the text has no [':'] in any line nothing is saved, also
    with the save button's state set: the collection after the run is the
    one the module-level code left, and no success message is shown. *)
Theorem nothing_extracted_nothing_saved
        (s : session) (image : Image) (text : str) :
  uploaded_file s = Some (Ok image) ->
  ocr_core (OfPIL image) = Ok text ->
  (forall line, In line (lines_of text) -> ~ In colon line) ->
  collection (snd (run s)) = collection (after_init s)
  /\ (forall msg, ~ In (Success msg) (ui (snd (run s)))).
Proof.
  intros Hup Hocr Hlines.
  pose proof (no_colon_frame text Hlines) as Hparse.
  unfold run, script, seq, after_init. rewrite init_mongo_ok.
  assert (Hinit : forall msg,
             ~ In (Success msg) (ui (snd (init_mongo s (mkWorld [] None))))).
  { unfold init_mongo, try_except, seq, call, set_collection, show.
    destruct (connect s); cbn; intros msg [H|[]]; discriminate. }
  destruct (snd (init_mongo s (mkWorld [] None))) as [u0 c0].
  cbn [ui collection] in *.
  unfold main, seq, show, call. rewrite Hup. cbn. rewrite Hocr. cbn.
  rewrite Hparse. cbn.
  match goal with
  | |- context [stored_block s ?w0] =>
      destruct (stored_block_effect s w0) as (evs & E & _ & _ & Hsucc & _)
  end.
  rewrite E. cbn. split; [reflexivity|].
  intros msg Hin.
  repeat match goal with
         | H : In _ (_ ++ _) |- _ => apply in_app_or in H; destruct H as [H|H]
         end;
    try (now apply (Hinit msg)); try (now apply (Hsucc msg));
    cbn in Hin; intuition discriminate.
Qed.

End SavingRuns.

(** ** The further properties at concrete inputs *)

Lemma run_without_upload_witness :
  @run (sample_vision []) idle_session =
  (Ok tt,
   mkWorld (ui (after_init idle_session) ++ page_header ++ [Info msg_upload]
              ++ page_footer)
           (collection (after_init idle_session))).
Proof.
  apply (@run_without_upload (sample_vision []) idle_session). reflexivity.
Defined.

Lemma run_undecodable_upload_witness :
  @run (sample_vision []) broken_session =
  (Raise (OtherError "UnidentifiedImageError"),
   mkWorld (ui (after_init broken_session) ++ page_header)
           (collection (after_init broken_session))).
Proof.
  apply (@run_undecodable_upload (sample_vision []) broken_session).
  reflexivity.
Defined.

Lemma run_raises_only_from_image_witness :
  uploaded_file gray_session =
    Some (Raise (CvError "Invalid number of channels in input image: scn is 1"))
  \/ exists image,
       uploaded_file gray_session = Some (Ok image)
       /\ @ocr_core (sample_vision []) (OfPIL image) =
          Raise (CvError "Invalid number of channels in input image: scn is 1").
Proof.
  apply (@run_raises_only_from_image (sample_vision []) gray_session).
  reflexivity.
Defined.

Lemma run_shows_table_witness :
  parse_receipt sample_receipt = Ok (parsed sample_receipt)
  /\ rows (parsed sample_receipt) <> []
  /\ fst (@run (sample_vision sample_receipt) sample_session) = Ok tt
  /\ In (Grid (parsed sample_receipt))
        (ui (snd (@run (sample_vision sample_receipt) sample_session)))
  /\ (forall msg,
        ~ In (Warning msg)
             (ui (snd (@run (sample_vision sample_receipt) sample_session)))).
Proof.
  apply (@run_shows_table (sample_vision sample_receipt) sample_session
           sample_image sample_receipt (lit ":5.00")).
  - reflexivity.
  - reflexivity.
  - vm_compute. right. left. reflexivity.
  - simpl. left. reflexivity.
Defined.


Lemma second_save_duplicates_witness :
  exists c1 c2,
    collection (snd (@run (sample_vision sample_receipt) sample_session)) = Some c1
    /\ collection (snd (@run (sample_vision sample_receipt)
                          (with_connect sample_session (Ok c1)))) = Some c2
    /\ strip_ids (docs c2) =
       strip_ids (docs sample_collection)
         ++ extracted sample_receipt ++ extracted sample_receipt
    /\ List.length (docs c2) =
       (List.length (docs sample_collection)
        + 2 * List.length (extracted sample_receipt))%nat
    /\ next_oid c2 =
       (next_oid sample_collection
        + 2 * N.of_nat (List.length (extracted sample_receipt)))%N.
Proof.
  apply (@second_save_duplicates (sample_vision sample_receipt)
           sample_session sample_image sample_receipt (lit ":5.00")
           sample_collection); try reflexivity.
  - vm_compute. right. left. reflexivity.
  - simpl. left. reflexivity.
Defined.

Lemma nothing_extracted_nothing_saved_witness :
  collection (snd (@run (sample_vision plain_text) sample_session)) =
  collection (after_init sample_session)
  /\ (forall msg,
        ~ In (Success msg)
             (ui (snd (@run (sample_vision plain_text) sample_session)))).
Proof.
  apply (@nothing_extracted_nothing_saved (sample_vision plain_text)
           sample_session sample_image plain_text).
  - reflexivity.
  - reflexivity.
  - intros line [<-|[]]. apply str_contains_false_iff. reflexivity.
Defined.

Example sample_run_stored :
  strip_ids (docs sample_saved) =
  [[(Field, PStr (lit "Total")); (Value, PStr (lit "5.00"))];
   [(Field, PStr (lit "Time")); (Value, PStr (lit "10:30"))];
   [(Field, PStr (lit "Total")); (Value, PStr [])];
   [(Field, PStr []); (Value, PStr (lit "5.00"))];
   [(Field, PStr (lit "Time")); (Value, PStr (lit "10:30"))]].
Proof. vm_compute. reflexivity. Qed.

(** * The record extractor, stated on the lines of a text *)

(** Every text has lines, and only one list of them. *)
Lemma is_lines_of_exists (text : str) : exists ls, is_lines_of text ls.
Proof.
  exists (lines_of text). unfold is_lines_of, lines_of. repeat split.
  - apply split_from_nonempty.
  - intros l. apply lines_of_no_nl.
  - symmetry. apply str_join_split.
Qed.

Lemma is_lines_of_lines_of (text : str) (ls : list str) :
  is_lines_of text ls -> lines_of text = ls.
Proof. intros (Hne & Hnl & ->). now apply lines_of_join. Qed.

Lemma is_lines_of_unique (text : str) (ls ls' : list str) :
  is_lines_of text ls -> is_lines_of text ls' -> ls = ls'.
Proof.
  intros H H'. apply is_lines_of_lines_of in H, H'. congruence.
Qed.

Lemma spec_holds_colon_iff (l : str) : spec_holds_colon l = true <-> In colon l.
Proof.
  unfold spec_holds_colon. destruct (in_dec N.eq_dec colon l); split;
    tauto || discriminate.
Qed.

Lemma has_colon_spec (l : str) : has_colon l = spec_holds_colon l.
Proof.
  destruct (spec_holds_colon l) eqn:E.
  - apply str_contains_true_iff. now apply spec_holds_colon_iff.
  - apply str_contains_false_iff. intros H.
    apply spec_holds_colon_iff in H. congruence.
Qed.

Lemma strip_of_trimmed (f : str) : trimmed f -> strip f = f.
Proof.
  intros [Hh Hl]. unfold strip. rewrite (lstrip_clean _ Hh).
  unfold rstrip. rewrite (lstrip_clean _ Hl). apply rev_involutive.
Qed.

(** White space around a trimmed string is what [strip] takes away. *)
Lemma strip_padded (a f b : str) :
  forallb isspace a = true -> forallb isspace b = true -> trimmed f ->
  strip (a ++ f ++ b) = f.
Proof.
  intros Ha Hb Hf. rewrite strip_pad_l by assumption.
  rewrite strip_pad_r by assumption. now apply strip_of_trimmed.
Qed.

(** C1: for every text, given as its lines, [parse_receipt] returns a
    frame that holds exactly as many records as the text has lines with a
    [':'] among their characters; every record is the record of such a
    line, so a line without [':'] gives none. *)
Theorem parse_receipt_record_count (text : str) (ls : list str) :
  is_lines_of text ls ->
  exists df,
    parse_receipt text = Ok df
    /\ List.length (rows df) = spec_count_colon_lines ls
    /\ List.length (to_dict_records df) = spec_count_colon_lines ls
    /\ Forall (fun r => exists line,
                  In line ls /\ In colon line /\ r = spec_record line)
              (to_dict_records df).
Proof.
  intros Hls. pose proof (is_lines_of_lines_of Hls) as El.
  eexists. split; [apply parse_receipt_frame|].
  unfold to_dict_records. cbn [rows columns]. rewrite El.
  rewrite !length_map. unfold spec_count_colon_lines.
  rewrite (filter_ext has_colon spec_holds_colon has_colon_spec).
  repeat split.
  apply Forall_forall.
  intros r Hr. rewrite map_map in Hr. apply in_map_iff in Hr.
  destruct Hr as (line & <- & Hin). apply filter_In in Hin.
  destruct Hin as [Hin Hc]. exists line. repeat split; [assumption|].
  now apply spec_holds_colon_iff.
Qed.

Lemma counted_lines_are_lines : is_lines_of (str_join nl counted_lines) counted_lines.
Proof.
  split; [discriminate|]. split; [|reflexivity].
  intros l Hl. apply str_contains_false_iff.
  repeat (destruct Hl as [<-|Hl]; [reflexivity|]). destruct Hl.
Qed.

Lemma parse_receipt_record_count_witness :
  exists df,
    parse_receipt (str_join nl counted_lines) = Ok df
    /\ List.length (rows df) = 3%nat.
Proof.
  destruct (parse_receipt_record_count counted_lines_are_lines)
    as (df & E & Hrows & _).
  exists df. split; [exact E | exact Hrows].
Defined.

(** C2: take a line with a [':'], cut at the first one: before it a
    string [f] with white space around it, after it a string [v] with
    white space around it, [f] and [v] having no white space at either
    end.  Then the record with field [f] and value [v] is among the
    records [parse_receipt] returns.  The value may hold further [':'],
    and [f] or [v] may be empty: the record is there all the same. *)
Theorem parse_receipt_line_record
        (text : str) (ls : list str) (a f b a' v b' : str) :
  is_lines_of text ls ->
  In ((a ++ f ++ b) ++ colon :: (a' ++ v ++ b')) ls ->
  ~ In colon f ->
  forallb isspace a = true -> forallb isspace b = true ->
  forallb isspace a' = true -> forallb isspace b' = true ->
  trimmed f -> trimmed v ->
  exists df,
    parse_receipt text = Ok df
    /\ In [(Field, PStr f); (Value, PStr v)] (to_dict_records df).
Proof.
  intros Hls Hline Hcf Ha Hb Ha' Hb' Hf Hv.
  pose proof (is_lines_of_lines_of Hls) as El.
  assert (Hpre : ~ In colon (a ++ f ++ b)).
  { rewrite !in_app_iff. intros [H|[H|H]].
    - now apply (space_no_colon a Ha).
    - now apply Hcf.
    - now apply (space_no_colon b Hb). }
  eexists. split; [apply parse_receipt_frame|].
  unfold to_dict_records. cbn [rows columns]. rewrite El, map_map.
  apply in_map_iff. exists ((a ++ f ++ b) ++ colon :: (a' ++ v ++ b')). split.
  - unfold spec_row. cbn [combine].
    rewrite spec_before_first_app, spec_after_first_app by assumption.
    now rewrite !strip_padded.
  - apply filter_In. split; [assumption|].
    unfold has_colon. rewrite str_contains_app. apply orb_true_iff. right.
    apply str_contains_true_iff. now left.
Qed.

Lemma padded_lines_are_lines : is_lines_of (str_join nl padded_lines) padded_lines.
Proof.
  split; [discriminate|]. split; [|reflexivity].
  intros l Hl. apply str_contains_false_iff.
  repeat (destruct Hl as [<-|Hl]; [reflexivity|]). destruct Hl.
Qed.

Lemma parse_receipt_line_record_witness :
  exists df,
    parse_receipt (str_join nl padded_lines) = Ok df
    /\ In [(Field, PStr (lit "Time")); (Value, PStr (lit "10:30"))]
          (to_dict_records df).
Proof.
  apply (@parse_receipt_line_record (str_join nl padded_lines) padded_lines
           (lit "  ") (lit "Time") (lit " ")
           (lit " ") (lit "10:30") (lit " " ++ [13%N])).
  - exact padded_lines_are_lines.
  - right. left. reflexivity.
  - apply str_contains_false_iff. reflexivity.
  - reflexivity.
  - reflexivity.
  - reflexivity.
  - reflexivity.
  - split; reflexivity.
  - split; reflexivity.
Defined.

Example parse_padded_lines :
  records (parse_receipt (str_join nl padded_lines)) =
  [[(Field, PStr (lit "Total")); (Value, PStr [])];
   [(Field, PStr (lit "Time")); (Value, PStr (lit "10:30"))];
   [(Field, PStr []); (Value, PStr (lit "5.00"))]].
Proof. vm_compute. reflexivity. Qed.
